(** * OCR orchestration core of ocr-response-flask: a shallow embedding

    The development follows [ocr_engine.py]: the text helpers of Python's
    [str], the fragment of the [re] library the field extractor uses, the
    field extractor [parse_id_card_fields], the engine adapters with their
    [process_image] pipeline, and the orchestrator [OCRProcessor] with its
    voting reconciler [_determine_best_guess].

    Texts are [string]s whose characters are read as the code points
    U+0000..U+00FF.  Python dictionaries are insertion-ordered association
    lists with unique keys.  Exceptions are values of [outcome]. *)

From Stdlib Require Import Bool Arith List Ascii String Lia QArith.
Import ListNotations.
Open Scope string_scope.
Open Scope nat_scope.

(** ** Outcomes: a returned value or a raised exception *)

Inductive exn_class := ValueError | KeyError | AttributeError | NotImplementedError | Exception_.

Record exn := mkExn { exn_cls : exn_class; exn_msg : string }.

Inductive outcome (A : Type) :=
| Returned (a : A)
| Raised (e : exn).
Arguments Returned {A} a.
Arguments Raised {A} e.

Definition bind {A B} (x : outcome A) (f : A -> outcome B) : outcome B :=
  match x with
  | Returned a => f a
  | Raised e => Raised e
  end.

(** [try_except body handler] is [try: body / except Exception as e: handler e]. *)
Definition try_except {A} (body : outcome A) (handler : exn -> outcome A) : outcome A :=
  match body with
  | Returned a => Returned a
  | Raised e => handler e
  end.

Notation "x <- c1 ;; c2" := (bind c1 (fun x => c2))
  (at level 61, c1 at next level, right associativity).

(** ** Python's [str] built-ins *)

Module Py.

Definition nl : ascii := "010"%char.

Definition code (c : ascii) : nat := nat_of_ascii c.

Definition between (lo hi n : nat) : bool := (lo <=? n) && (n <=? hi).

(** [str.isspace] on one character; also the class [\s] of [re]. *)
Definition isspace (c : ascii) : bool :=
  let n := code c in
  between 9 13 n || between 28 32 n || (n =? 133) || (n =? 160).

(** The class [\d] of [re]. *)
Definition isdigit (c : ascii) : bool := between 48 57 (code c).

Definition lower_char (c : ascii) : ascii :=
  let n := code c in
  if between 65 90 n || between 192 214 n || between 216 222 n
  then ascii_of_nat (n + 32) else c.

(** The upper-case images of U+00B5, U+00DF and U+00FF lie outside the 8-bit
    range; these three are left as they are. *)
Definition upper_char (c : ascii) : ascii :=
  let n := code c in
  if between 97 122 n || between 224 246 n || between 248 254 n
  then ascii_of_nat (n - 32) else c.

Fixpoint smap (f : ascii -> ascii) (s : string) : string :=
  match s with
  | EmptyString => EmptyString
  | String c s' => String (f c) (smap f s')
  end.

Definition lower (s : string) : string := smap lower_char s.
Definition upper (s : string) : string := smap upper_char s.

Definition is_empty (s : string) : bool :=
  match s with EmptyString => true | _ => false end.

Fixpoint lstrip (s : string) : string :=
  match s with
  | String c s' => if isspace c then lstrip s' else s
  | EmptyString => EmptyString
  end.

Fixpoint rstrip (s : string) : string :=
  match s with
  | String c s' =>
      let r := rstrip s' in
      if isspace c && is_empty r then EmptyString else String c r
  | EmptyString => EmptyString
  end.

(** [s.strip()] *)
Definition strip (s : string) : string := rstrip (lstrip s).

(** [s.split(sep)] for a one-character separator. *)
Fixpoint split_on (sep : ascii) (s : string) : list string :=
  match s with
  | EmptyString => [EmptyString]
  | String c s' =>
      if Ascii.eqb c sep then EmptyString :: split_on sep s'
      else match split_on sep s' with
           | w :: ws => String c w :: ws
           | [] => [String c EmptyString]
           end
  end.

(** [s.split()]: the maximal runs of non-whitespace characters. *)
Fixpoint split_ws_aux (cur : string) (s : string) : list string :=
  match s with
  | EmptyString => if is_empty cur then [] else [cur]
  | String c s' =>
      if isspace c
      then (if is_empty cur then split_ws_aux EmptyString s'
            else cur :: split_ws_aux EmptyString s')
      else split_ws_aux (cur ++ String c EmptyString) s'
  end.

Definition split (s : string) : list string := split_ws_aux EmptyString s.

(** [sub in s] *)
Fixpoint contains (sub s : string) : bool :=
  prefix sub s ||
  match s with
  | EmptyString => false
  | String _ s' => contains sub s'
  end.

(** [s[a:b]] for [0 <= a <= b]. *)
Definition slice (a b : nat) (s : string) : string := substring a (b - a) s.

End Py.

(** ** Python dictionaries: insertion-ordered, keys unique *)

Module Dict.

Section Dict.
Context {V : Type}.

Definition t := list (string * V).

Definition empty : t := [].

Fixpoint get (k : string) (d : t) : option V :=
  match d with
  | [] => None
  | (k', v) :: d' => if String.eqb k k' then Some v else get k d'
  end.

(** [d.get(k, default)] *)
Definition get_default (k : string) (default : V) (d : t) : V :=
  match get k d with Some v => v | None => default end.

(** [k in d] *)
Definition mem (k : string) (d : t) : bool :=
  match get k d with Some _ => true | None => false end.

(** [d[k] = v]: an existing key keeps its place, a new key goes last. *)
Fixpoint set (k : string) (v : V) (d : t) : t :=
  match d with
  | [] => [(k, v)]
  | (k', v') :: d' =>
      if String.eqb k k' then (k', v) :: d' else (k', v') :: set k v d'
  end.

Definition keys (d : t) : list string := map fst d.

(** [d.items()] *)
Definition items (d : t) : list (string * V) := d.

End Dict.
Arguments t V : clear implicits.

End Dict.

(** ** The fragment of Python's [re] the extractor uses

    Every pattern of [parse_id_card_fields] is compiled with
    [re.IGNORECASE]; the matcher below is therefore case-insensitive
    throughout.  It is the backtracking matcher of [re]: leftmost start,
    greedy repetition, alternatives tried left to right. *)

Module Re.

(** One member of a bracketed set [[...]]. *)
Inductive item :=
| One (c : ascii)            (* a single character *)
| Range (a b : ascii)        (* [a-b] *)
| Space                      (* [\s] *)
| Digit.                     (* [\d] *)

Inductive regex :=
| Chr (c : ascii)                                 (* a literal character *)
| OneOf (set : list item)                         (* [[...]] *)
| Rep (set : list item) (lo : nat) (hi : option nat)
                                                  (* [[...]*], [[...]+], [[...]{m,n}] *)
| Cat (r1 r2 : regex)                             (* r1 r2 *)
| Alt (r1 r2 : regex)                             (* r1|r2 *)
| Grp (r : regex).                                (* ( r ) *)

Definition in_range (a b x : ascii) : bool :=
  Py.between (Py.code a) (Py.code b) (Py.code x).

(** Membership under [re.IGNORECASE]: a character belongs to the set when it
    or its other-case form does.  This is the membership of the source on
    the 8-bit characters of this development; on wider texts the source's
    [[A-Za-z]] also takes U+212A, U+017F, U+0130 and U+0131, and its [\d]
    every Unicode decimal digit.  The properties of the extracted values are
    therefore stated over these classes and not over ASCII. *)
Definition in_item (x : ascii) (i : item) : bool :=
  match i with
  | One c => Ascii.eqb (Py.lower_char x) (Py.lower_char c)
  | Range a b =>
      in_range a b x || in_range a b (Py.lower_char x) || in_range a b (Py.upper_char x)
  | Space => Py.isspace x
  | Digit => Py.isdigit x
  end.

Definition in_set (set : list item) (x : ascii) : bool := existsb (in_item x) set.

(** A match object: the span of the whole match and of group 1 (no pattern
    of the extractor has a second group). *)
Record match_obj := mkMatch {
  m_start : nat;
  m_end : nat;
  m_group1 : option (nat * nat)
}.

Definition more (hi : option nat) : bool :=
  match hi with Some O => false | _ => true end.

(** Greedy repetition of a set: take as many characters as allowed, give
    them back one at a time while the rest of the pattern fails. *)
Fixpoint rep (set : list item) (lo : nat) (hi : option nat) (s : string) (pos : nat)
    (k : string -> nat -> option match_obj) {struct s} : option match_obj :=
  let stop := match lo with O => k s pos | S _ => None end in
  match s with
  | String c s' =>
      if in_set set c && more hi then
        match rep set (pred lo) (option_map pred hi) s' (S pos) k with
        | Some m => Some m
        | None => stop
        end
      else stop
  | EmptyString => stop
  end.

(** [rmatch r s pos g k]: match [r] at position [pos], where [s] is the text
    from [pos] on and [g] the span of group 1 so far; [k] matches what
    follows [r]. *)
Fixpoint rmatch (r : regex) (s : string) (pos : nat) (g : option (nat * nat))
    (k : string -> nat -> option (nat * nat) -> option match_obj) : option match_obj :=
  match r with
  | Chr c =>
      match s with
      | String x s' =>
          if Ascii.eqb (Py.lower_char x) (Py.lower_char c) then k s' (S pos) g else None
      | EmptyString => None
      end
  | OneOf set =>
      match s with
      | String x s' => if in_set set x then k s' (S pos) g else None
      | EmptyString => None
      end
  | Rep set lo hi => rep set lo hi s pos (fun s' pos' => k s' pos' g)
  | Cat r1 r2 => rmatch r1 s pos g (fun s' pos' g' => rmatch r2 s' pos' g' k)
  | Alt r1 r2 =>
      match rmatch r1 s pos g k with
      | Some m => Some m
      | None => rmatch r2 s pos g k
      end
  | Grp r1 => rmatch r1 s pos g (fun s' pos' _ => k s' pos' (Some (pos, pos')))
  end.

(** [r.match(text, pos)]: a match starting exactly at [pos]. *)
Definition match_at (r : regex) (s : string) (pos : nat) : option match_obj :=
  rmatch r s pos None (fun _ pos' g => Some (mkMatch pos pos' g)).

Fixpoint search_from (r : regex) (s : string) (pos : nat) : option match_obj :=
  match match_at r s pos with
  | Some m => Some m
  | None =>
      match s with
      | String _ s' => search_from r s' (S pos)
      | EmptyString => None
      end
  end.

(** [re.search(r, text, re.IGNORECASE)] *)
Definition search (r : regex) (text : string) : option match_obj :=
  search_from r text 0.

(** [len(match.groups())]: the number of groups of the pattern. *)
Fixpoint ngroups (r : regex) : nat :=
  match r with
  | Cat r1 r2 | Alt r1 r2 => ngroups r1 + ngroups r2
  | Grp r1 => S (ngroups r1)
  | _ => 0
  end.

(** [match.group(0)] *)
Definition group0 (text : string) (m : match_obj) : string :=
  Py.slice (m_start m) (m_end m) text.

(** [match.group(1)]; every pattern below that is asked for group 1 has it
    on its spine, so the group always took part in the match. *)
Definition group1 (text : string) (m : match_obj) : string :=
  match m_group1 m with
  | Some (a, b) => Py.slice a b text
  | None => EmptyString
  end.

(** Pattern syntax. *)
Fixpoint lit (s : string) : regex :=
  match s with
  | String c EmptyString => Chr c
  | String c s' => Cat (Chr c) (lit s')
  | EmptyString => Rep [] 0 (Some 0)
  end.

Definition star (set : list item) : regex := Rep set 0 None.
Definition plus (set : list item) : regex := Rep set 1 None.
Definition times (set : list item) (n : nat) : regex := Rep set n (Some n).
Definition upto (set : list item) (lo hi : nat) : regex := Rep set lo (Some hi).

End Re.

Declare Scope re_scope.
Delimit Scope re_scope with re.
Infix "+++" := Re.Cat (at level 60, right associativity) : re_scope.

(** ** The field extractor *)

Module BaseOCREngine.

Import Re.
Local Open Scope re_scope.

Definition FieldRecord := Dict.t string.

(** The seven field names, in the order the code lists them. *)
Definition field_names : list string :=
  ["ID"; "FullName"; "University"; "Department"; "Enrollment"; "BloodGroup"; "Validity"].

(** Sets of the patterns. *)
Definition letters : list item := [Range "A" "Z"; Range "a" "z"].           (* [A-Za-z] *)
Definition alnum : list item := [Range "A" "Z"; Range "a" "z"; Range "0" "9"]. (* [A-Za-z0-9] *)
Definition colon_space : list item := [One ":"; Space].                      (* [:\s] *)
Definition upper_AZ : list item := [Range "A" "Z"].                          (* [A-Z] *)
Definition lower_az : list item := [Range "a" "z"].                          (* [a-z] *)
Definition dept_chars : list item :=                                         (* [A-Za-z\s&(),.-] *)
  [Range "A" "Z"; Range "a" "z"; Space; One "&"; One "("; One ")"; One ","; One "."; One "-"].
Definition blood_chars : list item :=                                        (* [A|B|AB|O] *)
  [One "A"; One "|"; One "B"; One "|"; One "A"; One "B"; One "|"; One "O"].
Definition sign_chars : list item := [One "+"; One "-"].                     (* [+-] *)

(** [[A-Z][a-z]+\s+[A-Z][a-z]+\s+[A-Z][a-z]+] *)
Definition three_words : regex :=
  OneOf upper_AZ +++ plus lower_az +++ plus [Space] +++
  OneOf upper_AZ +++ plus lower_az +++ plus [Space] +++
  OneOf upper_AZ +++ plus lower_az.

(** [[A-Za-z]+\s+\d{4}] *)
Definition term_year : regex := plus letters +++ plus [Space] +++ times [Digit] 4.

Definition id_patterns : list regex :=
  [ OneOf letters +++ times [Digit] 7;
    lit "ID" +++ star colon_space +++ Grp (upto alnum 6 10);
    lit "ID" +++ star [Space] +++ lit "No" +++ star colon_space +++ Grp (upto alnum 6 10) ].

Definition name_patterns : list regex :=
  [ lit "Name" +++ star colon_space +++ Grp three_words;
    lit "Full Name" +++ star colon_space +++ Grp three_words ].

Definition uni_keywords : list string := ["university"; "institute"; "college"].

Definition dept_patterns : list regex :=
  [ lit "Department" +++ star colon_space +++ Grp (plus dept_chars);
    lit "Dept" +++ star colon_space +++ Grp (plus dept_chars) ].

Definition seasons : regex :=
  Alt (lit "Spring") (Alt (lit "Fall") (Alt (lit "Autumn") (Alt (lit "Summer") (lit "Winter")))).

Definition year_patterns : list regex :=
  [ lit "Enrollment" +++ star colon_space +++ Grp term_year;
    lit "Session" +++ star colon_space +++ Grp term_year;
    Grp seasons +++ plus [Space] +++ times [Digit] 4 ].

Definition blood_patterns : list regex :=
  [ lit "Blood" +++ star colon_space +++ Grp (OneOf blood_chars +++ OneOf sign_chars);
    lit "Blood Group" +++ star colon_space +++ Grp (OneOf blood_chars +++ OneOf sign_chars) ].

Definition validity_patterns : list regex :=
  [ lit "Valid" +++ star colon_space +++ Grp term_year;
    lit "Validity" +++ star colon_space +++ Grp term_year ].

(** [for x in xs: ... if cond: fields[key] = value; break]: the value of the
    first element that passes, if any. *)
Fixpoint first_hit {A B} (f : A -> option B) (xs : list A) : option B :=
  match xs with
  | [] => None
  | x :: xs' => match f x with Some b => Some b | None => first_hit f xs' end
  end.

(** The assignment guarded by the loop: the dictionary is left alone when
    nothing passes. *)
Definition assign (key : string) (hit : option string) (fields : FieldRecord) : FieldRecord :=
  match hit with
  | Some v => Dict.set key v fields
  | None => fields
  end.

Definition id_rule (text : string) (pattern : regex) : option string :=
  match search pattern text with
  | Some m => Some (if 0 <? ngroups pattern then group1 text m else group0 text m)
  | None => None
  end.

Definition name_rule (text : string) (pattern : regex) : option string :=
  match search pattern text with
  | Some m =>
      if 2 <=? List.length (Py.split (group1 text m)) then Some (group1 text m) else None
  | None => None
  end.

Definition uni_rule (line : string) : option string :=
  let line_lower := Py.lower line in
  if existsb (fun keyword => Py.contains keyword line_lower) uni_keywords
     && (10 <? String.length (Py.strip line))
  then Some (Py.strip line) else None.

Definition dept_rule (text : string) (pattern : regex) : option string :=
  option_map (fun m => Py.strip (group1 text m)) (search pattern text).

Definition year_rule (text : string) (pattern : regex) : option string :=
  option_map (fun m => group0 text m) (search pattern text).

Definition blood_rule (text : string) (pattern : regex) : option string :=
  option_map (fun m => Py.upper (group1 text m)) (search pattern text).

Definition validity_rule (text : string) (pattern : regex) : option string :=
  option_map (fun m => group0 text m) (search pattern text).

Definition parse_id_card_fields (text : string) : FieldRecord :=
  let fields : FieldRecord :=
    [("ID", ""); ("FullName", ""); ("University", ""); ("Department", "");
     ("Enrollment", ""); ("BloodGroup", ""); ("Validity", "")] in
  let fields := assign "ID" (first_hit (id_rule text) id_patterns) fields in
  let fields := assign "FullName" (first_hit (name_rule text) name_patterns) fields in
  let fields := assign "University" (first_hit uni_rule (Py.split_on Py.nl text)) fields in
  let fields := assign "Department" (first_hit (dept_rule text) dept_patterns) fields in
  let fields := assign "Enrollment" (first_hit (year_rule text) year_patterns) fields in
  let fields := assign "BloodGroup" (first_hit (blood_rule text) blood_patterns) fields in
  let fields := assign "Validity" (first_hit (validity_rule text) validity_patterns) fields in
  fields.

(** An engine result; [confidence] is the exact rational the float stands
    for ([0.0] is [0], [1.0] is [1]). *)
Record EngineResult := mkResult {
  raw_text : string;
  structured_data : FieldRecord;
  confidence : Q;
  engine : string
}.

(** [min(1.0, x)] *)
Definition min_one (x : Q) : Q := if Qle_bool 1 x then 1%Q else x.

(** The shared confidence heuristic, [min(1.0, len(text.strip()) / 1000)]. *)
Definition confidence_of (text : string) : Q :=
  min_one (Z.of_nat (String.length (Py.strip text)) # 1000).

(** The base class leaves [extract_text] to its subclasses. *)
Definition extract_text (image_path : string) : outcome string :=
  Raised (mkExn NotImplementedError "").

(** [extract_with_confidence], over the [extract_text] of the instance. *)
Definition extract_with_confidence (self_extract_text : string -> outcome string)
    (image_path : string) : outcome (string * Q) :=
  text <- self_extract_text image_path ;;
  Returned (text, confidence_of text).

(** The result built in the [except] branches and by the dummy engine. *)
Definition degraded (message : string) (engine_name : string) : EngineResult :=
  {| raw_text := message;
     structured_data := Dict.empty;
     confidence := 0;
     engine := engine_name |}.

(** [process_image] as the subclasses inherit it. *)
Definition process_image (engine_name : string)
    (self_extract_text : string -> outcome string)
    (image_path : string) : outcome EngineResult :=
  try_except
    (p <- extract_with_confidence self_extract_text image_path ;;
     let '(raw_text, confidence) := p in
     let structured_data := parse_id_card_fields raw_text in
     Returned {| raw_text := raw_text;
                 structured_data := structured_data;
                 confidence := confidence;
                 engine := engine_name |})
    (fun e => Returned (degraded ("Error: " ++ exn_msg e) engine_name)).

(** *** Preprocessing, over the image library

    [cv2], [PIL], [pytesseract] and [easyocr] are outside the repository;
    their functions are the variables of this section.  A decoder returns
    [None] for a file it cannot read. *)
Section Imaging.

Variable ndarray : Type.
Variable imread : string -> option ndarray.             (* cv2.imread(path) *)
Variable imread_grayscale : string -> option ndarray.   (* cv2.imread(path, cv2.IMREAD_GRAYSCALE) *)
Variable cvtColor_gray : ndarray -> outcome ndarray.    (* cv2.cvtColor(img, cv2.COLOR_BGR2GRAY) *)
Variable threshold_otsu : ndarray -> outcome ndarray.   (* cv2.threshold(gray, 0, 255, BINARY + OTSU)[1] *)
Variable medianBlur3 : ndarray -> outcome ndarray.      (* cv2.medianBlur(thresh, 3) *)

Definition preprocess_image (image_path : string) : outcome (option ndarray) :=
  try_except
    (match imread image_path with
     | None => Raised (mkExn ValueError ("Could not read image from " ++ image_path))
     | Some img =>
         gray <- cvtColor_gray img ;;
         thresh <- threshold_otsu gray ;;
         denoised <- medianBlur3 thresh ;;
         Returned (Some denoised)
     end)
    (fun e => Returned (imread_grayscale image_path)).

End Imaging.

End BaseOCREngine.


(** ** The engines *)

(** An engine of the registry: a subclass that supplies [extract_text] and
    inherits the rest ([TesseractEngine], [EasyOCREngine]), or the
    [DummyEngine] that overrides [process_image] itself. *)
Inductive Engine :=
| Adapter (engine_name : string) (extract_text : string -> outcome string)
| DummyEngine (engine_name : string) (msg : string).

Definition engine_name_of (e : Engine) : string :=
  match e with
  | Adapter name _ => name
  | DummyEngine name _ => name
  end.

(** [engine.extract_text(image_path)] *)
Definition extract_text_of (e : Engine) (image_path : string) : outcome string :=
  match e with
  | Adapter _ extract_text => extract_text image_path
  | DummyEngine _ msg => Returned msg
  end.

(** The call [engine.process_image(image_path)], by dynamic dispatch. *)
Definition call_process_image (e : Engine) (image_path : string) : outcome BaseOCREngine.EngineResult :=
  match e with
  | Adapter name extract_text => BaseOCREngine.process_image name extract_text image_path
  | DummyEngine name msg => Returned (BaseOCREngine.degraded msg name)
  end.

Section Backends.

Variable ndarray : Type.
Variable imread : string -> option ndarray.
Variable imread_grayscale : string -> option ndarray.
Variable cvtColor_gray : ndarray -> outcome ndarray.
Variable threshold_otsu : ndarray -> outcome ndarray.
Variable medianBlur3 : ndarray -> outcome ndarray.

Variable pil_image : Type.
Variable fromarray : option ndarray -> outcome pil_image.       (* Image.fromarray *)
Variable image_to_string : pil_image -> outcome string.         (* pytesseract.image_to_string *)
Variable readtext : ndarray -> outcome (list string).           (* the texts of reader.readtext *)

Definition tesseract_extract_text (image_path : string) : outcome string :=
  try_except
    (processed_img <-
       BaseOCREngine.preprocess_image ndarray imread imread_grayscale
         cvtColor_gray threshold_otsu medianBlur3 image_path ;;
     pil_img <- fromarray processed_img ;;
     text <- image_to_string pil_img ;;
     Returned text)
    (fun e => Raised (mkExn Exception_ ("Tesseract extraction failed: " ++ exn_msg e))).

Definition easyocr_extract_text (image_path : string) : outcome string :=
  try_except
    (match imread image_path with
     | None => Raised (mkExn ValueError "Could not read image")
     | Some img =>
         results <- readtext img ;;
         Returned (String.concat " " results)
     end)
    (fun e => Raised (mkExn Exception_ ("EasyOCR extraction failed: " ++ exn_msg e))).

Definition TesseractEngine : Engine := Adapter "tesseract" tesseract_extract_text.
Definition EasyOCREngine : Engine := Adapter "easy_ocr" easyocr_extract_text.

End Backends.

(** ** The orchestrator *)

Module OCRProcessor.

Import BaseOCREngine.

Definition EngineRegistry := Dict.t Engine.

Record OCRReport := mkReport {
  best_guess : FieldRecord;
  results_by_engine : Dict.t EngineResult
}.

Definition _create_dummy_engine (engine_name message : string) : Engine :=
  DummyEngine engine_name message.

(** The registry [__init__] builds: a backend whose construction raised is
    left out, the two dummy engines are always there. *)
Definition init (tesseract easy_ocr : outcome Engine) : EngineRegistry :=
  let engines : EngineRegistry := Dict.empty in
  let engines :=
    match tesseract with Returned e => Dict.set "tesseract" e engines | Raised _ => engines end in
  let engines :=
    match easy_ocr with Returned e => Dict.set "easy_ocr" e engines | Raised _ => engines end in
  let engines :=
    Dict.set "paddle_ocr"
      (_create_dummy_engine "paddle_ocr" "PaddleOCR disabled (requires paddlepaddle)") engines in
  let engines :=
    Dict.set "ocropus" (_create_dummy_engine "ocropus" "Using Tesseract as fallback") engines in
  engines.

(** The inner loop of the reconciler keeps a value when
    [value and value.lower() not in ['not found', 'net found', '']]. *)
Definition survives (value : string) : bool :=
  negb (Py.is_empty value)
  && negb (existsb (String.eqb (Py.lower value)) ["not found"; "net found"; ""]).

(** [value = result['structured_data'].get(field, '').strip()] *)
Definition value_of (field : string) (result : EngineResult) : string :=
  Py.strip (Dict.get_default field "" (structured_data result)).

(** One step of the tally: [values[value] = values.get(value, 0) + 1]. *)
Definition tally_step (field : string) (values : Dict.t nat)
    (item : string * EngineResult) : Dict.t nat :=
  let value := value_of field (snd item) in
  if survives value
  then Dict.set value (Dict.get_default value 0 values + 1) values
  else values.

Definition tally (field : string) (results : Dict.t EngineResult) : Dict.t nat :=
  fold_left (tally_step field) (Dict.items results) Dict.empty.

(** [max(items, key=lambda x: x[1])] on a non-empty sequence: the first item
    of greatest count. *)
Definition max_by_count (first : string * nat) (rest : list (string * nat)) : string * nat :=
  fold_left (fun best x => if snd best <? snd x then x else best) rest first.

Definition best_value (field : string) (results : Dict.t EngineResult) : string :=
  match Dict.items (tally field results) with
  | first :: rest => fst (max_by_count first rest)
  | [] => "Not Found"
  end.

Definition _determine_best_guess (results : Dict.t EngineResult) : FieldRecord :=
  fold_left (fun best_guess field => Dict.set field (best_value field results) best_guess)
    field_names Dict.empty.

Definition process_all_step (image_path : string) (results : Dict.t EngineResult)
    (item : string * Engine) : Dict.t EngineResult :=
  let '(engine_name, engine) := item in
  match call_process_image engine image_path with
  | Returned result => Dict.set engine_name result results
  | Raised e => Dict.set engine_name (degraded ("Error: " ++ exn_msg e) engine_name) results
  end.

Definition process_all (engines : EngineRegistry) (image_path : string) : outcome OCRReport :=
  let results := fold_left (process_all_step image_path) (Dict.items engines) Dict.empty in
  let best_guess := _determine_best_guess results in
  Returned {| best_guess := best_guess; results_by_engine := results |}.

Definition process_single (engines : EngineRegistry) (image_path engine_name : string)
    : outcome EngineResult :=
  if negb (Dict.mem engine_name engines)
  then Raised (mkExn ValueError ("Unknown engine: " ++ engine_name))
  else match Dict.get engine_name engines with
       | Some engine => call_process_image engine image_path
       | None => Raised (mkExn KeyError engine_name)
       end.

End OCRProcessor.

(** ** Vocabulary of the voting properties *)

Module Voting.

Import BaseOCREngine OCRProcessor.

(** The per-engine values of a field that pass the filter, in the iteration
    order of the results mapping. *)
Definition survivors (field : string) (results : Dict.t EngineResult) : list string :=
  filter survives (map (fun item => value_of field (snd item)) (Dict.items results)).

(** The number of occurrences of [v], by exact string equality. *)
Definition votes (v : string) (vs : list string) : nat := count_occ string_dec vs v.

(** A value the filter is meant to discard: empty after trimming, or equal
    to one of the two sentinels when case is ignored. *)
Definition discarded (value : string) : Prop :=
  value = "" \/ Py.lower value = "not found" \/ Py.lower value = "net found".

(** [values[value] = values.get(value, 0) + 1] *)
Definition bump (values : Dict.t nat) (value : string) : Dict.t nat :=
  Dict.set value (Dict.get_default value 0 values + 1) values.

(** The distinct values of a list, in the order of their first occurrence. *)
Definition distinct (vs : list string) : list string :=
  fold_left (fun acc v => if in_dec string_dec v acc then acc else (acc ++ [v])%list) vs [].

(** A field record in which every absent field name is given the empty
    string. *)
Definition fill_missing (d : FieldRecord) : FieldRecord :=
  fold_left (fun d field => if Dict.mem field d then d else Dict.set field "" d) field_names d.

Definition fill_item (item : string * EngineResult) : string * EngineResult :=
  let r := snd item in
  (fst item, mkResult (raw_text r) (fill_missing (structured_data r)) (confidence r) (engine r)).

(** What [process_all] stores for one registry entry. *)
Definition stored_result (image_path : string) (item : string * Engine) : string * EngineResult :=
  (fst item,
   match call_process_image (snd item) image_path with
   | Returned result => result
   | Raised e => degraded ("Error: " ++ exn_msg e) (fst item)
   end).

End Voting.

(** ** Vocabulary of the extraction properties *)

Module Rules.

Import Re BaseOCREngine.
Local Open Scope re_scope.

(** A labelled rule: the label, any run of colons and whitespace, and the
    captured body. *)
Definition labelled (label : string) (body : regex) : regex :=
  lit label +++ star colon_space +++ Grp body.

(** The body of the blood group rules, [[A|B|AB|O][+-]]. *)
Definition blood_body : regex := OneOf blood_chars +++ OneOf sign_chars.

(** The rule without a label: a season name, whitespace, four digits. *)
Definition bare_term : regex := Grp seasons +++ plus [Space] +++ times [Digit] 4.

(** The first pattern of a list that matches the text, with its match. *)
Fixpoint first_match (patterns : list regex) (text : string) : option (regex * match_obj) :=
  match patterns with
  | [] => None
  | p :: ps =>
      match search p text with
      | Some m => Some (p, m)
      | None => first_match ps text
      end
  end.

Fixpoint all_in (set : list item) (s : string) : bool :=
  match s with
  | EmptyString => true
  | String c s' => in_set set c && all_in set s'
  end.

(** The words a pattern matches, under [re.IGNORECASE]. *)
Inductive matches : regex -> string -> Prop :=
| M_chr c x :
    Py.lower_char x = Py.lower_char c -> matches (Chr c) (String x "")
| M_oneof set x :
    in_set set x = true -> matches (OneOf set) (String x "")
| M_rep set lo hi w :
    all_in set w = true -> lo <= String.length w ->
    (forall h, hi = Some h -> String.length w <= h) ->
    matches (Rep set lo hi) w
| M_cat r1 r2 w1 w2 :
    matches r1 w1 -> matches r2 w2 -> matches (Cat r1 r2) (w1 ++ w2)
| M_alt_l r1 r2 w : matches r1 w -> matches (Alt r1 r2) w
| M_alt_r r1 r2 w : matches r2 w -> matches (Alt r1 r2) w
| M_grp r w : matches r w -> matches (Grp r) w.

(** The whole match is the label (in any case), a run of colons and
    whitespace, and then group 1, which is a word of the body. *)
Definition with_label (label : string) (body : regex) (text : string) (m : match_obj) : Prop :=
  exists l sep,
    group0 text m = l ++ sep ++ group1 text m
    /\ Py.lower l = Py.lower label
    /\ all_in colon_space sep = true
    /\ m_group1 m <> None
    /\ matches body (group1 text m).

Definition season_names : list string := ["spring"; "fall"; "autumn"; "summer"; "winter"].

(** A season name (in any case), whitespace, four digits, and nothing before
    them. *)
Definition bare_token (value : string) : Prop :=
  exists season ws year,
    value = season ++ ws ++ year
    /\ In (Py.lower season) season_names
    /\ all_in [Space] ws = true /\ ws <> ""
    /\ all_in [Digit] year = true /\ String.length year = 4.

End Rules.

(** ** Sample inputs *)

Module Samples.

Import BaseOCREngine OCRProcessor.

(** ["\n".join(ls)] *)
Definition lines (ls : list string) : string := String.concat (String Py.nl "") ls.

Definition scenario_text : string :=
  lines ["ID: C2010074"; "Name: John Michael Smith"; "Dept: Computer Science";
         "Spring 2024"; "Blood: A+"].

(** A file system on which no image can be decoded. *)
Definition no_image (image_path : string) : option unit := None.
Definition pass (img : unit) : outcome unit := Returned img.

Definition paddle : Engine :=
  _create_dummy_engine "paddle_ocr" "PaddleOCR disabled (requires paddlepaddle)".

(** An adapter whose [extract_text] raises on every path, and one that reads
    the scenario text off every image. *)
Definition broken : Engine :=
  Adapter "tesseract"
    (fun _ => Raised (mkExn Exception_ "Tesseract extraction failed: no image")).
Definition reader : Engine := Adapter "easy_ocr" (fun _ => Returned scenario_text).

Definition registry : EngineRegistry := init (Returned broken) (Returned reader).

(** A result that carries only one field. *)
Definition only (engine_name field value : string) : string * EngineResult :=
  (engine_name,
   {| raw_text := value; structured_data := [(field, value)];
      confidence := 0; engine := engine_name |}).

Definition abc_results (field : string) : Dict.t EngineResult :=
  [only "A" field "X"; only "B" field "X"; only "C" field "Y"].

Definition not_found_results : Dict.t EngineResult :=
  [only "A" "ID" " Not Found "; only "B" "ID" "NET FOUND"; only "C" "ID" "  ";
   ("D", degraded "unavailable" "D")].

End Samples.

(** ** Vocabulary of the further properties *)

Module More.

Import BaseOCREngine OCRProcessor.

(** A result casts a vote when one of its seven field values passes the
    filter of the reconciler. *)
Definition casts_a_vote (r : EngineResult) : bool :=
  existsb (fun field => survives (value_of field r)) field_names.

(** The results that cast a vote, in their order. *)
Definition voters (results : Dict.t EngineResult) : Dict.t EngineResult :=
  filter (fun item => casts_a_vote (snd item)) results.

(** An ASCII letter. *)
Definition is_letter (c : ascii) : bool :=
  Py.between 65 90 (Py.code c) || Py.between 97 122 (Py.code c).

Definition is_alnum (c : ascii) : bool := is_letter c || Py.isdigit c.


Fixpoint all_chars (p : ascii -> bool) (s : string) : bool :=
  match s with
  | EmptyString => true
  | String c s' => p c && all_chars p s'
  end.

Fixpoint any_char (p : ascii -> bool) (s : string) : bool :=
  match s with
  | EmptyString => false
  | String c s' => p c || any_char p s'
  end.

(** One character of the class [[A-Za-z]] followed by seven characters of
    the class [\d], both as the patterns match them (case ignored). *)
Definition is_bare_code (v : string) : Prop :=
  exists c d,
    v = String c d /\ Re.in_set letters c = true
    /\ all_chars (Re.in_set [Re.Digit]) d = true /\ String.length d = 7.

(** Six to ten characters of the class [[A-Za-z0-9]], as the patterns match
    it. *)
Definition is_labelled_code (v : string) : Prop :=
  all_chars (Re.in_set alnum) v = true /\ 6 <= String.length v <= 10.

(** The body of the group a pattern ends with, when everything before the
    group is free of groups. *)
Fixpoint last_group (r : Re.regex) : option Re.regex :=
  match r with
  | Re.Grp body => Some body
  | Re.Cat a r' => if Re.ngroups a =? 0 then last_group r' else None
  | _ => None
  end.

(** The 256 characters. *)
Definition all_ascii : list ascii := map ascii_of_nat (seq 0 256).

(** A sufficient test for: every word of the pattern holds an ASCII
    letter. *)
Fixpoint needs_letter (r : Re.regex) : bool :=
  match r with
  | Re.Chr c => is_letter c
  | Re.OneOf set => forallb (fun x => implb (Re.in_set set x) (is_letter x)) all_ascii
  | Re.Rep set lo _ =>
      (1 <=? lo) && forallb (fun x => implb (Re.in_set set x) (is_letter x)) all_ascii
  | Re.Cat a b => needs_letter a || needs_letter b
  | Re.Alt a b => needs_letter a && needs_letter b
  | Re.Grp a => needs_letter a
  end.

(** The record the extractor starts from. *)
Definition empty_fields : FieldRecord :=
  [("ID", ""); ("FullName", ""); ("University", ""); ("Department", "");
   ("Enrollment", ""); ("BloodGroup", ""); ("Validity", "")].

(** The condition of the University loop on one line. *)
Definition qualifies (line : string) : bool :=
  existsb (fun keyword => Py.contains keyword (Py.lower line)) uni_keywords
  && (10 <? String.length (Py.strip line)).

End More.

(** ** The upload filter of [app.py] *)

Module App.

(** [s.rsplit(sep, 1)]: split at the last occurrence of a one-character
    separator; one piece when the separator does not occur. *)
Fixpoint rsplit1 (sep : ascii) (s : string) : list string :=
  match s with
  | EmptyString => [EmptyString]
  | String c s' =>
      match rsplit1 sep s' with
      | [a; b] => [String c a; b]
      | _ => if Ascii.eqb c sep then [EmptyString; s'] else [String c s']
      end
  end.

(** [Config.ALLOWED_EXTENSIONS] *)
Definition ALLOWED_EXTENSIONS : list string := ["png"; "jpg"; "jpeg"; "bmp"; "tiff"; "pdf"].

(** [allowed_file]: the second operand of [and] is evaluated only when the
    name holds a dot, so the index 1 exists. *)
Definition allowed_file (filename : string) : bool :=
  Py.contains "." filename
  && match nth_error (rsplit1 "." filename) 1 with
     | Some ext => existsb (String.eqb (Py.lower ext)) ALLOWED_EXTENSIONS
     | None => false
     end.

(** No dot in a string. *)
Definition dotless (s : string) : bool := More.all_chars (fun c => negb (Ascii.eqb c ".")) s.

End App.

(** ** The service and the two OCR routes of [app.py]

    A dictionary that is handed to [jsonify] is modelled by its JSON tree.
    The functions of [uuid], [datetime], [os.path], [werkzeug] and the
    database session are the variables of the section. *)

Module Service.

Import BaseOCREngine OCRProcessor App.

#[warnings="-register-all"]
Inductive json :=
| JBool (b : bool)
| JInt (n : nat)
| JNum (q : Q)
| JStr (s : string)
| JObj (members : list (string * json)).

Definition fields_json (d : FieldRecord) : json :=
  JObj (map (fun kv => (fst kv, JStr (snd kv))) d).

Definition result_json (r : EngineResult) : json :=
  JObj [("raw_text", JStr (raw_text r));
        ("structured_data", fields_json (structured_data r));
        ("confidence", JNum (confidence r));
        ("engine", JStr (engine r))].

(** [d[k]]; the text of a [KeyError] is the key between quotes. *)
Definition lookup {V} (k : string) (d : Dict.t V) : outcome V :=
  match Dict.get k d with
  | Some v => Returned v
  | None => Raised (mkExn KeyError ("'" ++ k ++ "'"))
  end.

(** An uploaded file; it is truthy when its name is not empty. *)
Record FileStorage := mkFile { fs_filename : string }.

Definition truthy (file : FileStorage) : bool := negb (Py.is_empty (fs_filename file)).

(** The dictionary [result_data] of [process_image_ocr]. *)
Record ResultData := mkResultData {
  rd_id : string;
  rd_filename : string;
  rd_file_path : string;
  rd_upload_date : string;
  rd_tesseract_raw : string;
  rd_easyocr_raw : string;
  rd_paddleocr_raw : string;
  rd_ocropus_raw : string;
  rd_tesseract_structured : FieldRecord;
  rd_easyocr_structured : FieldRecord;
  rd_paddleocr_structured : FieldRecord;
  rd_ocropus_structured : FieldRecord;
  rd_best_guess : FieldRecord;
  rd_tesseract_confidence : Q;
  rd_easyocr_confidence : Q;
  rd_paddleocr_confidence : Q;
  rd_ocropus_confidence : Q
}.

Definition UPLOAD_FOLDER : string := "uploads".


Definition Response := (json * nat)%type.

Section Environment.

Variable engines : EngineRegistry.                       (* ocr_processor.engines *)
Variable secure_filename : string -> string.             (* werkzeug's secure_filename *)
Variable upload_uuid_hex : string.                       (* uuid.uuid4().hex of the upload *)
Variable path_join : string -> string -> string.         (* os.path.join *)
Variable file_save : FileStorage -> string -> outcome unit.   (* file.save(file_path) *)
Variable id_uuid : string.                               (* str(uuid.uuid4()) of the result *)
Variable utcnow_isoformat : string.                      (* datetime.utcnow().isoformat() *)
Variable persist : ResultData -> outcome unit.
  (* db_manager.create(OCRResult.from_dict(result_data)) *)

(** [save_uploaded_file]; [None] stands for the pair [(None, None)]. *)
Definition save_uploaded_file (file : FileStorage) : outcome (option (string * string)) :=
  if truthy file && allowed_file (fs_filename file) then
    let filename := secure_filename (fs_filename file) in
    let unique_filename := upload_uuid_hex ++ "_" ++ filename in
    let file_path := path_join UPLOAD_FOLDER unique_filename in
    _ <- file_save file file_path ;;
    Returned (Some (file_path, unique_filename))
  else Returned None.



Definition error_only (message : string) (code : nat) : Response :=
  (JObj [("error", JStr message)], code).

(** [not file_path] *)
Definition falsy (file_path : string) : bool := Py.is_empty file_path.


(** The route [POST /api/ocr/<engine_name>]: a [ValueError] is answered
    with 400, any other exception with 500. *)
Definition process_ocr_single (files : Dict.t FileStorage) (engine_name : string) : Response :=
  match
    (if negb (Dict.mem "image" files)
     then Returned (error_only "No image file provided" 400)
     else
       file <- lookup "image" files ;;
       if String.eqb (fs_filename file) ""
       then Returned (error_only "No selected file" 400)
       else
         saved <- save_uploaded_file file ;;
         match saved with
         | None => Returned (error_only "File type not allowed" 400)
         | Some (file_path, filename) =>
             if falsy file_path
             then Returned (error_only "File type not allowed" 400)
             else
               result <- process_single engines file_path engine_name ;;
               let result_id := id_uuid in
               Returned
                 (JObj [("id", JStr result_id);
                        ("filename", JStr filename);
                        ("engine", JStr engine_name);
                        ("result", result_json result);
                        ("timestamp", JStr utcnow_isoformat)], 200)
         end)
  with
  | Returned response => response
  | Raised e =>
      match exn_cls e with
      | ValueError => error_only (exn_msg e) 400
      | _ => error_only (exn_msg e) 500
      end
  end.

End Environment.

End Service.

(** * Properties *)

(** ** Dictionaries *)

Section DictFacts.
Context {V : Type}.
Implicit Types (d : Dict.t V) (k : string) (v : V).

Lemma get_none_iff d k : Dict.get k d = None <-> ~ In k (Dict.keys d).
Proof.
  induction d as [|[k' v'] d IH]; simpl.
  - tauto.
  - destruct (String.eqb_spec k k') as [->|Hne].
    + split; [discriminate | intros H; exfalso; apply H; now left].
    + rewrite IH. split.
      * intros H [E|E]; [congruence | tauto].
      * intros H E. apply H. now right.
Qed.

Lemma keys_set_in d k v : In k (Dict.keys d) -> Dict.keys (Dict.set k v d) = Dict.keys d.
Proof.
  induction d as [|[k' v'] d IH]; simpl; [tauto|].
  intros H. destruct (String.eqb_spec k k') as [->|Hne]; simpl; [reflexivity|].
  f_equal. apply IH. destruct H; congruence.
Qed.

Lemma get_set_same d k v : Dict.get k (Dict.set k v d) = Some v.
Proof.
  induction d as [|[k' v'] d IH]; simpl.
  - now rewrite String.eqb_refl.
  - destruct (String.eqb_spec k k') as [->|Hne]; simpl.
    + now rewrite String.eqb_refl.
    + destruct (String.eqb_spec k k'); [congruence | exact IH].
Qed.

Lemma get_set_other d k k' v : k <> k' -> Dict.get k (Dict.set k' v d) = Dict.get k d.
Proof.
  intros Hne. induction d as [|[k0 v0] d IH]; simpl.
  - destruct (String.eqb_spec k k'); [congruence | reflexivity].
  - destruct (String.eqb_spec k' k0) as [->|Hne0]; simpl.
    + destruct (String.eqb_spec k k0); [congruence | reflexivity].
    + destruct (String.eqb_spec k k0); [reflexivity | exact IH].
Qed.

End DictFacts.

(** ** The field extractor on concrete texts *)

Section Extractor.
Import BaseOCREngine Samples.

(** C1. On the scenario text the extractor does not return the expected
    record: the Department set holds [\s], so the capture runs over the line
    break and takes the letters of the next line; the stored value is
    "Computer Science", a line break, "Spring".  The other six fields are
    as expected. *)
Theorem scenario_department_spills_over :
  parse_id_card_fields scenario_text =
    [("ID", "C2010074"); ("FullName", "John Michael Smith"); ("University", "");
     ("Department", lines ["Computer Science"; "Spring"]);
     ("Enrollment", "Spring 2024"); ("BloodGroup", "A+"); ("Validity", "")]
  /\ Dict.get "Department" (parse_id_card_fields scenario_text) <> Some "Computer Science"
  /\ Re.in_set dept_chars Py.nl = true.
Proof.
  split; [vm_compute; reflexivity|].
  split; [vm_compute; discriminate | reflexivity].
Qed.

End Extractor.

(** ** Preprocessing *)

Section Preprocess.
Import BaseOCREngine.

Variable ndarray : Type.
Variable imread imread_grayscale : string -> option ndarray.
Variable cvtColor_gray threshold_otsu medianBlur3 : ndarray -> outcome ndarray.

Let preprocess :=
  preprocess_image ndarray imread imread_grayscale cvtColor_gray threshold_otsu medianBlur3.

(** Whatever the image library does, [preprocess_image] returns. *)
Lemma preprocess_image_returns image_path :
  exists img, preprocess image_path = Returned img.
Proof.
  unfold preprocess, preprocess_image, try_except, bind.
  destruct (imread image_path) as [img|]; [|eauto].
  destruct (cvtColor_gray img) as [gray|]; [|eauto].
  destruct (threshold_otsu gray) as [thresh|]; [|eauto].
  destruct (medianBlur3 thresh) as [den|]; eauto.
Qed.

(** C2. When the decode fails, the [ValueError] raised for it is caught by
    the handler of the same [try]: the call returns the result of the
    grayscale decode (which is [None] for an unreadable file) and raises
    nothing. *)
Theorem preprocess_image_swallows_decode_failure image_path :
  imread image_path = None ->
  preprocess image_path = Returned (imread_grayscale image_path)
  /\ forall e, preprocess image_path <> Raised e.
Proof.
  intros H. unfold preprocess, preprocess_image, try_except. rewrite H.
  split; [reflexivity | discriminate].
Qed.

End Preprocess.

Lemma preprocess_image_swallows_decode_failure_witness :
  Samples.no_image "missing.png" = None
  /\ BaseOCREngine.preprocess_image unit Samples.no_image Samples.no_image
       Samples.pass Samples.pass Samples.pass "missing.png" = Returned None.
Proof.
  split; [reflexivity|].
  apply (preprocess_image_swallows_decode_failure unit Samples.no_image Samples.no_image
           Samples.pass Samples.pass Samples.pass "missing.png").
  reflexivity.
Defined.

(** The sibling check in [EasyOCREngine.extract_text] does reach the caller:
    its handler raises again. *)
Lemma easyocr_decode_failure_raises (ndarray : Type) (imread : string -> option ndarray)
    (readtext : ndarray -> outcome (list string)) (image_path : string) :
  imread image_path = None ->
  easyocr_extract_text ndarray imread readtext image_path
    = Raised (mkExn Exception_ "EasyOCR extraction failed: Could not read image").
Proof.
  intros H. unfold easyocr_extract_text, try_except. now rewrite H.
Qed.

(** ** The per-engine pipeline *)

Section Pipeline.
Import BaseOCREngine.

Lemma keys_assign key hit (fields : FieldRecord) :
  In key (Dict.keys fields) -> Dict.keys (assign key hit fields) = Dict.keys fields.
Proof.
  intros H. destruct hit; simpl; [now apply keys_set_in | reflexivity].
Qed.

(** The extractor returns the seven keys on every text. *)
Lemma parse_id_card_fields_keys text :
  Dict.keys (parse_id_card_fields text) = field_names.
Proof.
  assert (keep : forall key hit (d : FieldRecord),
             In key field_names -> Dict.keys d = field_names ->
             Dict.keys (assign key hit d) = field_names).
  { intros key hit d Hk Hd. rewrite keys_assign; [exact Hd | now rewrite Hd]. }
  unfold parse_id_card_fields.
  repeat (apply keep; [simpl; tauto|]).
  reflexivity.
Qed.

(** The pipeline of an engine never raises. *)
Lemma call_process_image_returns e image_path :
  exists r, call_process_image e image_path = Returned r.
Proof.
  destruct e as [name ex|name msg]; simpl; [|eauto].
  unfold process_image, extract_with_confidence, try_except, bind.
  destruct (ex image_path); eauto.
Qed.

(** C3, as the code has it.  A result built from extracted text carries the
    seven keys; the degraded result of a failed extraction and the result of
    the dummy engine carry the empty dictionary, with confidence 0. *)
Theorem process_image_field_keys e image_path :
  match e with
  | Adapter name extract_text =>
      match extract_text image_path with
      | Returned text =>
          call_process_image e image_path =
            Returned (mkResult text (parse_id_card_fields text) (confidence_of text) name)
          /\ Dict.keys (parse_id_card_fields text) = field_names
      | Raised err =>
          call_process_image e image_path =
            Returned (mkResult ("Error: " ++ exn_msg err) Dict.empty 0 name)
      end
  | DummyEngine name msg =>
      call_process_image e image_path = Returned (mkResult msg Dict.empty 0 name)
  end.
Proof.
  destruct e as [name ex|name msg]; simpl; [|reflexivity].
  unfold process_image, extract_with_confidence, try_except, bind.
  destruct (ex image_path); [|reflexivity].
  split; [reflexivity | apply parse_id_card_fields_keys].
Qed.

(** C3, as stated, fails: the result of the dummy engine has no key at all. *)
Lemma dummy_result_has_no_keys :
  exists r,
    call_process_image Samples.paddle "card.png" = Returned r
    /\ Dict.keys (structured_data r) = []
    /\ Dict.keys (structured_data r) <> field_names
    /\ Dict.get "ID" (structured_data r) = None.
Proof.
  eexists. split; [reflexivity|]. simpl. repeat split; discriminate.
Qed.

End Pipeline.

(** ** The single-engine entry point *)

Section Single.
Import BaseOCREngine OCRProcessor.

(** C8. [process_single] raises exactly when the identifier is not a key of
    the registry, and then it raises the [ValueError] "Unknown engine: ...";
    for a registered identifier it is the call of that engine's
    [process_image], which returns, and nothing else is run. *)
Theorem process_single_unknown_iff (engines : EngineRegistry) (image_path engine_name : string) :
  ((exists e, process_single engines image_path engine_name = Raised e)
     <-> ~ In engine_name (Dict.keys engines))
  /\ match Dict.get engine_name engines with
     | None =>
         process_single engines image_path engine_name =
           Raised (mkExn ValueError ("Unknown engine: " ++ engine_name))
     | Some engine =>
         process_single engines image_path engine_name = call_process_image engine image_path
         /\ exists r, call_process_image engine image_path = Returned r
     end.
Proof.
  unfold process_single, Dict.mem.
  rewrite <- get_none_iff.
  destruct (Dict.get engine_name engines) as [engine|] eqn:E; simpl.
  - destruct (call_process_image_returns engine image_path) as [r Hr].
    split; [|split; [reflexivity | eauto]].
    rewrite Hr. split; [intros [e He]; discriminate | discriminate].
  - split; [|reflexivity]. split; [reflexivity | eauto].
Qed.

End Single.

(** ** The tally of the reconciler *)

Section Tally.
Import BaseOCREngine OCRProcessor Voting.

Lemma get_map_graph (f : string -> nat) (l : list string) (x : string) :
  Dict.get x (map (fun v => (v, f v)) l) = if in_dec string_dec x l then Some (f x) else None.
Proof.
  induction l as [|a l IH]; simpl; [reflexivity|].
  destruct (String.eqb_spec x a) as [->|Hne].
  - destruct (string_dec a a); [reflexivity | congruence].
  - rewrite IH. destruct (string_dec a x); [congruence|].
    destruct (in_dec string_dec x l); reflexivity.
Qed.

Lemma set_map_graph_in (f g : string -> nat) (l : list string) (x : string) (c : nat) :
  In x l -> g x = c -> (forall v, v <> x -> g v = f v) -> NoDup l ->
  Dict.set x c (map (fun v => (v, f v)) l) = map (fun v => (v, g v)) l.
Proof.
  intros Hin Hx Hg. revert Hin. induction l as [|a l IH]; simpl; [tauto|].
  intros Hin Hnd. inversion Hnd as [|? ? Ha Hl]; subst.
  destruct (String.eqb_spec x a) as [->|Hne].
  - f_equal. apply map_ext_in. intros v Hv. f_equal. symmetry. apply Hg.
    intros ->. contradiction.
  - rewrite (Hg a) by congruence. f_equal. apply IH; [|exact Hl].
    destruct Hin; congruence.
Qed.

Lemma set_map_graph_new (f g : string -> nat) (l : list string) (x : string) (c : nat) :
  ~ In x l -> g x = c -> (forall v, v <> x -> g v = f v) ->
  Dict.set x c (map (fun v => (v, f v)) l) = map (fun v => (v, g v)) (l ++ [x]).
Proof.
  intros Hin Hx Hg. revert Hin. induction l as [|a l IH]; simpl; intros Hin.
  - now rewrite Hx.
  - destruct (String.eqb_spec x a) as [->|Hne]; [exfalso; apply Hin; now left|].
    rewrite (Hg a) by congruence. f_equal. apply IH. intros H. apply Hin. now right.
Qed.

Lemma distinct_snoc vs x :
  distinct (vs ++ [x]) =
    if in_dec string_dec x (distinct vs) then distinct vs else (distinct vs ++ [x])%list.
Proof. unfold distinct. now rewrite fold_left_app. Qed.

Lemma distinct_in vs v : In v (distinct vs) <-> In v vs.
Proof.
  induction vs as [|x vs IH] using rev_ind; [reflexivity|].
  rewrite distinct_snoc, in_app_iff. simpl.
  destruct (in_dec string_dec x (distinct vs)) as [Hx|Hx].
  - rewrite IH. split; [tauto|]. intros [H|[<-|[]]]; [exact H | now apply IH].
  - rewrite in_app_iff, IH. simpl. tauto.
Qed.

Lemma distinct_nodup vs : NoDup (distinct vs).
Proof.
  induction vs as [|x vs IH] using rev_ind; [constructor|].
  rewrite distinct_snoc.
  destruct (in_dec string_dec x (distinct vs)) as [Hx|Hx]; [exact IH|].
  apply NoDup_app; [exact IH | repeat constructor; simpl; tauto |].
  intros a Ha [<-|[]]. contradiction.
Qed.

Lemma votes_snoc v vs x :
  votes v (vs ++ [x]) = votes v vs + (if string_dec x v then 1 else 0).
Proof.
  unfold votes. rewrite count_occ_app. simpl. destruct (string_dec x v); reflexivity.
Qed.

(** The tally dictionary lists the distinct values in the order of their
    first occurrence, each with its number of occurrences. *)
Lemma bump_fold vs :
  fold_left bump vs Dict.empty = map (fun v => (v, votes v vs)) (distinct vs).
Proof.
  induction vs as [|x vs IH] using rev_ind; [reflexivity|].
  rewrite fold_left_app, IH, distinct_snoc. simpl. unfold bump, Dict.get_default.
  rewrite get_map_graph.
  destruct (in_dec string_dec x (distinct vs)) as [Hx|Hx].
  - apply set_map_graph_in; [exact Hx | | | apply distinct_nodup].
    + rewrite votes_snoc. destruct (string_dec x x); [reflexivity | congruence].
    + intros v Hv. rewrite votes_snoc. destruct (string_dec x v); [congruence | lia].
  - apply set_map_graph_new; [exact Hx | |].
    + rewrite votes_snoc. destruct (string_dec x x); [|congruence].
      unfold votes. rewrite (proj1 (count_occ_not_In string_dec vs x)); [reflexivity|].
      intros H. apply Hx. now apply distinct_in.
    + intros v Hv. rewrite votes_snoc. destruct (string_dec x v); [congruence | lia].
Qed.

Lemma tally_fold field (results : Dict.t EngineResult) (acc : Dict.t nat) :
  fold_left (tally_step field) results acc = fold_left bump (survivors field results) acc.
Proof.
  revert acc. unfold survivors, Dict.items.
  induction results as [|item results IH]; intros acc; simpl; [reflexivity|].
  unfold tally_step at 2.
  destruct (survives (value_of field (snd item))); simpl; apply IH.
Qed.

Lemma tally_survivors field results :
  tally field results =
    map (fun v => (v, votes v (survivors field results))) (distinct (survivors field results)).
Proof. unfold tally, Dict.items. rewrite tally_fold. apply bump_fold. Qed.

(** [max] over the items returns the first item of greatest count. *)
Lemma max_by_count_first (first : string * nat) rest :
  exists l1 l2,
    first :: rest = (l1 ++ max_by_count first rest :: l2)%list
    /\ (forall y, In y l1 -> snd y < snd (max_by_count first rest))
    /\ (forall y, In y l2 -> snd y <= snd (max_by_count first rest)).
Proof.
  unfold max_by_count.
  cut (forall rest (best : string * nat) l1 l2,
          (forall y, In y l1 -> snd y < snd best) ->
          (forall y, In y l2 -> snd y <= snd best) ->
          let r := fold_left (fun best x => if snd best <? snd x then x else best) rest best in
          exists l1' l2',
            ((l1 ++ best :: l2) ++ rest)%list = (l1' ++ r :: l2')%list
            /\ (forall y, In y l1' -> snd y < snd r)
            /\ (forall y, In y l2' -> snd y <= snd r)).
  { intros H. apply (H rest first [] []); simpl; tauto. }
  clear. induction rest as [|x rest IH]; intros best l1 l2 H1 H2; simpl.
  - exists l1, l2. rewrite app_nil_r. auto.
  - destruct (Nat.ltb_spec (snd best) (snd x)) as [Hlt|Hge].
    + destruct (IH x (l1 ++ best :: l2)%list []) as (l1' & l2' & E & A & B).
      * intros y Hy. apply in_app_iff in Hy. destruct Hy as [Hy|[<-|Hy]].
        -- specialize (H1 y Hy). lia.
        -- exact Hlt.
        -- specialize (H2 y Hy). lia.
      * simpl; tauto.
      * exists l1', l2'. split; [|auto]. rewrite <- E. now rewrite <- !app_assoc.
    + destruct (IH best l1 (l2 ++ [x])%list) as (l1' & l2' & E & A & B).
      * exact H1.
      * intros y Hy. apply in_app_iff in Hy. destruct Hy as [Hy|[<-|[]]]; [auto | exact Hge].
      * exists l1', l2'. split; [|auto]. rewrite <- E.
        rewrite <- !app_assoc. simpl. now rewrite <- app_assoc.
Qed.

(** A value at the head of a suffix of [distinct vs] first occurs in [vs]
    after everything before it in [distinct vs]. *)
Lemma distinct_split vs l1 v l2 :
  distinct vs = (l1 ++ v :: l2)%list ->
  exists pre post,
    vs = (pre ++ v :: post)%list /\ ~ In v pre /\ (forall w, In w pre -> In w l1).
Proof.
  revert l1 l2. induction vs as [|x vs IH] using rev_ind; intros l1 l2.
  - intros H. destruct l1; discriminate.
  - rewrite distinct_snoc.
    destruct (in_dec string_dec x (distinct vs)) as [Hx|Hx]; intros H.
    + destruct (IH _ _ H) as (pre & post & E & A & B).
      exists pre, (post ++ [x])%list. rewrite E, <- app_assoc. auto.
    + destruct (exists_last (l := v :: l2)) as (l2' & y & E2); [discriminate|].
      rewrite E2, app_assoc in H. apply app_inj_tail in H. destruct H as [H <-].
      destruct l2' as [|z l2'].
      * simpl in E2. injection E2 as -> ->. rewrite app_nil_r in H.
        exists vs, []. split; [reflexivity|]. split.
        -- intros Hin. apply Hx. now apply distinct_in.
        -- intros w Hw. rewrite <- H. now apply distinct_in.
      * simpl in E2. injection E2 as <- E2.
        destruct (IH l1 l2' H) as (pre & post & E & A & B).
        exists pre, (post ++ [x])%list. rewrite E, <- app_assoc. auto.
Qed.

End Tally.

(** ** The voting reconciler *)

Section Reconciler.
Import BaseOCREngine OCRProcessor Voting.

Lemma value_of_only name field value :
  value_of field (snd (Samples.only name field value)) = Py.strip value.
Proof.
  unfold value_of, Samples.only, Dict.get_default. simpl. now rewrite String.eqb_refl.
Qed.

(** The winner of a non-empty vote, located in the list of survivors. *)
Lemma best_value_located field results :
  survivors field results <> [] ->
  exists pre post,
    survivors field results = (pre ++ best_value field results :: post)%list
    /\ ~ In (best_value field results) pre
    /\ (forall w,
          votes w (survivors field results)
            <= votes (best_value field results) (survivors field results))
    /\ (forall w, In w pre ->
          votes w (survivors field results)
            < votes (best_value field results) (survivors field results)).
Proof.
  intros Hne. unfold best_value, Dict.items. rewrite tally_survivors.
  set (vs := survivors field results) in *.
  set (g := fun v : string => (v, votes v vs)).
  destruct (distinct vs) as [|d0 ds] eqn:Ed.
  { exfalso. destruct vs as [|x vs']; [congruence|].
    assert (H : In x (distinct (x :: vs'))) by (apply distinct_in; now left).
    rewrite Ed in H. exact H. }
  simpl map.
  destruct (max_by_count_first (g d0) (map g ds)) as (l1 & l2 & E & A & B).
  set (b := max_by_count (g d0) (map g ds)) in *.
  change (g d0 :: map g ds) with (map g (d0 :: ds)) in E. rewrite <- Ed in E.
  apply map_eq_app in E. destruct E as (d1 & dr & Ed' & E1 & E2).
  apply map_eq_cons in E2. destruct E2 as (v & d2 & -> & Ev & E2).
  assert (Hb : fst b = v) by (rewrite <- Ev; reflexivity).
  assert (Hs : snd b = votes v vs) by (rewrite <- Ev; reflexivity).
  rewrite Hb. rewrite Hs in A, B.
  destruct (distinct_split vs d1 v d2 Ed') as (pre & post & Evs & Hpre & Hin).
  exists pre, post. split; [exact Evs|]. split; [exact Hpre|]. split.
  - intros w. destruct (in_dec string_dec w vs) as [Hw|Hw].
    + apply distinct_in in Hw. rewrite Ed' in Hw. apply in_app_iff in Hw.
      destruct Hw as [Hw|[<-|Hw]].
      * apply Nat.lt_le_incl. apply (A (g w)). rewrite <- E1. now apply in_map.
      * apply le_n.
      * apply (B (g w)). rewrite <- E2. now apply in_map.
    + unfold votes at 1. rewrite (proj1 (count_occ_not_In string_dec vs w) Hw). apply Nat.le_0_l.
  - intros w Hw. apply (A (g w)). rewrite <- E1. apply in_map. now apply Hin.
Qed.

Lemma best_value_no_survivor field results :
  survivors field results = [] -> best_value field results = "Not Found".
Proof.
  intros H. unfold best_value, Dict.items. rewrite tally_survivors, H. reflexivity.
Qed.

Lemma lower_empty value : Py.lower value = "" <-> value = "".
Proof. destruct value; simpl; split; (reflexivity || discriminate). Qed.

Lemma survives_false_iff value : survives value = false <-> discarded value.
Proof.
  unfold survives, discarded. simpl existsb. rewrite orb_false_r.
  destruct value as [|c value']; simpl negb at 1; [simpl; tauto|].
  rewrite andb_true_l, negb_false_iff, !orb_true_iff, !String.eqb_eq, lower_empty.
  split; [intros [H|[H|H]]; auto; discriminate | intros [H|[H|H]]; auto].
Qed.

Lemma survivors_in field results v :
  In v (survivors field results) <->
  exists item, In item results /\ value_of field (snd item) = v /\ survives v = true.
Proof.
  unfold survivors, Dict.items. rewrite filter_In, in_map_iff. split.
  - intros [(item & E & Hin) Hs]. eauto.
  - intros (item & Hin & E & Hs). eauto.
Qed.

Lemma best_guess_get field results :
  In field field_names ->
  Dict.get field (_determine_best_guess results) = Some (best_value field results).
Proof.
  intros H. simpl in H.
  repeat (destruct H as [<-|H]; [reflexivity|]). destruct H.
Qed.

(** C5. For each of the seven fields the reconciler tallies the values
    that pass the filter (the trimmed field values of the engines, in the
    iteration order of the results mapping) by exact string equality; the
    value it puts in the best-guess record has the greatest count, and
    every value met before its first occurrence has a strictly smaller
    count, so that among the values of greatest count the one met first
    wins.  With the values X, X, Y of engines A, B, C the best-guess value
    is X. *)
Theorem best_value_first_plurality field results :
  In field field_names ->
  let vs :=
    filter survives
      (map (fun item => Py.strip (Dict.get_default field "" (structured_data (snd item))))
         (Dict.items results)) in
  exists best,
    Dict.get field (_determine_best_guess results) = Some best
    /\ tally field results = map (fun v => (v, votes v vs)) (distinct vs)
    /\ match vs with
       | [] => best = "Not Found"
       | _ :: _ =>
           exists pre post,
             vs = (pre ++ best :: post)%list
             /\ ~ In best pre
             /\ (forall w, votes w vs <= votes best vs)
             /\ (forall w, In w pre -> votes w vs < votes best vs)
       end
    /\ Dict.get field (_determine_best_guess (Samples.abc_results field)) = Some "X".
Proof.
  intros Hf vs. change vs with (survivors field results). clear vs.
  exists (best_value field results).
  split; [now apply best_guess_get|].
  split; [apply tally_survivors|]. split.
  - destruct (survivors field results) eqn:E.
    + now apply best_value_no_survivor.
    + rewrite <- E. apply best_value_located. rewrite E. discriminate.
  - rewrite best_guess_get by exact Hf. f_equal.
    unfold best_value, tally, Samples.abc_results, Dict.items. simpl.
    unfold tally_step. rewrite !value_of_only. reflexivity.
Qed.

Lemma best_value_first_plurality_witness :
  In "ID" field_names
  /\ Dict.get "ID" (_determine_best_guess (Samples.abc_results "ID")) = Some "X".
Proof.
  assert (H : In "ID" field_names) by (simpl; tauto).
  split; [exact H|].
  pose proof (best_value_first_plurality "ID" (Samples.abc_results "ID") H) as P.
  cbv zeta in P. destruct P as (best & _ & _ & _ & P). exact P.
Defined.

(** C6. For each of the seven fields, the value an engine reports (its
    field value, the empty string when the key is absent, trimmed) is left
    out of the tally exactly when it is empty or equals "not found" or
    "net found" with case ignored; and the best-guess record holds
    "Not Found" for the field exactly when every engine's value is left
    out. *)
Theorem filter_and_sentinel field results :
  In field field_names ->
  let reported :=
    fun item : string * EngineResult =>
      Py.strip (Dict.get_default field "" (structured_data (snd item))) in
  (forall raw, survives (Py.strip raw) = false <-> discarded (Py.strip raw))
  /\ (forall v, In v (Dict.keys (tally field results)) <->
        exists item, In item results /\ reported item = v /\ ~ discarded v)
  /\ ((forall item, In item results -> discarded (reported item))
      <-> Dict.get field (_determine_best_guess results) = Some "Not Found").
Proof.
  intros Hf reported.
  assert (Hrep : forall item, reported item = value_of field (snd item)) by reflexivity.
  split; [intros raw; apply survives_false_iff|]. split.
  - intros v. rewrite tally_survivors. unfold Dict.keys. rewrite map_map. simpl.
    rewrite map_id, distinct_in, survivors_in.
    split; intros (item & Hin & E & Hs); exists item; (split; [exact Hin|]);
      (split; [rewrite Hrep in *; exact E|]).
    + intros Hd. apply survives_false_iff in Hd. congruence.
    + destruct (survives v) eqn:Es; [reflexivity|]. apply survives_false_iff in Es. contradiction.
  - rewrite best_guess_get by exact Hf. split.
    + intros Hall. f_equal. apply best_value_no_survivor.
      destruct (survivors field results) as [|v vs] eqn:E; [reflexivity|].
      assert (Hv : In v (survivors field results)) by (rewrite E; now left).
      apply survivors_in in Hv. destruct Hv as (item & Hin & Ev & Hs).
      specialize (Hall item Hin). rewrite Hrep, Ev in Hall.
      apply survives_false_iff in Hall. congruence.
    + intros Hbest item Hin. injection Hbest as Hbest.
      apply survives_false_iff. rewrite Hrep.
      destruct (survives (value_of field (snd item))) eqn:Es; [|reflexivity].
      exfalso.
      assert (Hs : In (value_of field (snd item)) (survivors field results)).
      { apply survivors_in. eauto. }
      destruct (best_value_located field results) as (pre & post & Evs & _).
      { intros E. rewrite E in Hs. exact Hs. }
      assert (Hb : In (best_value field results) (survivors field results)).
      { rewrite Evs at 1. apply in_app_iff. right. now left. }
      apply survivors_in in Hb. destruct Hb as (item' & _ & _ & Hsb).
      rewrite Hbest in Hsb. discriminate.
Qed.

Lemma filter_and_sentinel_witness :
  Dict.get "ID" (_determine_best_guess Samples.not_found_results) = Some "Not Found".
Proof.
  assert (H : In "ID" field_names) by (simpl; tauto).
  pose proof (filter_and_sentinel "ID" Samples.not_found_results H) as P.
  cbv zeta in P. destruct P as (_ & _ & P). apply P.
  intros item Hin. simpl in Hin.
  destruct Hin as [<-|[<-|[<-|[<-|[]]]]]; vm_compute; auto.
Defined.

Lemma get_default_fill field (d : FieldRecord) :
  Dict.get_default field "" (fill_missing d) = Dict.get_default field "" d.
Proof.
  unfold fill_missing. generalize field_names as names.
  intros names. revert d. induction names as [|name names IH]; intros d; simpl; [reflexivity|].
  rewrite IH. unfold Dict.mem, Dict.get_default.
  destruct (Dict.get name d) eqn:E; [reflexivity|].
  destruct (string_dec field name) as [->|Hne].
  - now rewrite get_set_same, E.
  - now rewrite get_set_other.
Qed.

Lemma survivors_fill field results :
  survivors field (map fill_item results) = survivors field results.
Proof.
  unfold survivors, Dict.items. rewrite map_map. f_equal.
  apply map_ext. intros item. unfold value_of, fill_item. simpl.
  now rewrite get_default_fill.
Qed.

Lemma best_value_fill field results :
  best_value field (map fill_item results) = best_value field results.
Proof.
  unfold best_value, Dict.items. now rewrite !tally_survivors, survivors_fill.
Qed.

(** C9. On every results mapping the reconciler returns a record with
    exactly the seven keys; each key holds "Not Found" when no value
    survived and a surviving value otherwise; a field name that a record
    lacks is read as the empty string, so giving every absent field the
    empty string changes nothing. *)
Theorem best_guess_is_total_and_complete (results : Dict.t EngineResult) :
  Dict.keys (_determine_best_guess results) = field_names
  /\ (forall field, In field field_names ->
        exists v,
          Dict.get field (_determine_best_guess results) = Some v
          /\ ((survivors field results = [] /\ v = "Not Found")
              \/ In v (survivors field results)))
  /\ (forall field r,
        Dict.get field (structured_data r) = None -> value_of field r = Py.strip "")
  /\ _determine_best_guess (map fill_item results) = _determine_best_guess results.
Proof.
  split; [reflexivity|]. split; [|split].
  - intros field Hf. exists (best_value field results).
    split; [now apply best_guess_get|].
    destruct (survivors field results) as [|v vs] eqn:E.
    + left. split; [reflexivity | now apply best_value_no_survivor].
    + right. rewrite <- E.
      destruct (best_value_located field results) as (pre & post & Evs & _);
        [rewrite E; discriminate|].
      rewrite Evs at 1. apply in_app_iff. right. now left.
  - intros field r H. unfold value_of, Dict.get_default. now rewrite H.
  - unfold _determine_best_guess. simpl. now rewrite !best_value_fill.
Qed.

End Reconciler.

(** ** The orchestrator *)

Section Orchestrator.
Import BaseOCREngine OCRProcessor Voting.

Lemma set_new {V} (d : Dict.t V) k v :
  ~ In k (Dict.keys d) -> Dict.set k v d = (d ++ [(k, v)])%list.
Proof.
  induction d as [|[k' v'] d IH]; simpl; intros H; [reflexivity|].
  destruct (String.eqb_spec k k') as [->|Hne]; [exfalso; apply H; now left|].
  f_equal. apply IH. tauto.
Qed.

Lemma process_all_step_stored image_path results item :
  process_all_step image_path results item =
    Dict.set (fst item) (snd (stored_result image_path item)) results.
Proof.
  destruct item as [name e]. unfold process_all_step, stored_result. simpl.
  destruct (call_process_image e image_path); reflexivity.
Qed.

(** Over a registry, the loop of [process_all] stores one result per entry,
    in the order of the registry. *)
Lemma process_all_fold image_path (engines : EngineRegistry) (acc : Dict.t EngineResult) :
  NoDup (Dict.keys acc ++ Dict.keys engines) ->
  fold_left (process_all_step image_path) engines acc
    = (acc ++ map (stored_result image_path) engines)%list.
Proof.
  revert acc. induction engines as [|item engines IH]; intros acc Hnd; simpl.
  - now rewrite app_nil_r.
  - rewrite process_all_step_stored, set_new.
    + rewrite IH.
      * rewrite <- app_assoc. simpl. now destruct item.
      * unfold Dict.keys in *. rewrite map_app, <- app_assoc. exact Hnd.
    + simpl in Hnd. apply NoDup_remove_2 in Hnd.
      intros H. apply Hnd. apply in_app_iff. now left.
Qed.

Lemma get_stored image_path (engines : EngineRegistry) key :
  Dict.get key (map (stored_result image_path) engines)
    = option_map (fun e => snd (stored_result image_path (key, e))) (Dict.get key engines).
Proof.
  induction engines as [|[k e] engines IH]; simpl; [reflexivity|].
  destruct (String.eqb_spec key k) as [->|Hne]; [reflexivity | exact IH].
Qed.



End Orchestrator.

(** ** Strings *)

Section StringFacts.

Lemma sapp_assoc (a b c : string) : (a ++ b) ++ c = a ++ (b ++ c).
Proof. induction a as [|x a IH]; simpl; [reflexivity | now rewrite IH]. Qed.

Lemma slength_app (a b : string) : String.length (a ++ b) = String.length a + String.length b.
Proof. induction a as [|x a IH]; simpl; [reflexivity | now rewrite IH]. Qed.

Lemma substring_skip (a b : string) n :
  substring (String.length a) n (a ++ b) = substring 0 n b.
Proof. induction a as [|x a IH]; simpl; [reflexivity | exact IH]. Qed.

Lemma substring_take (a b : string) : substring 0 (String.length a) (a ++ b) = a.
Proof.
  induction a as [|x a IH]; simpl; [now destruct b | now rewrite IH].
Qed.

(** [text[len(a) : len(a) + len(b)]] of [a ++ b ++ c] is [b]. *)
Lemma slice_middle (a b c : string) :
  Py.slice (String.length a) (String.length a + String.length b) (a ++ b ++ c) = b.
Proof.
  unfold Py.slice. rewrite substring_skip.
  replace (String.length a + String.length b - String.length a) with (String.length b) by lia.
  apply substring_take.
Qed.

End StringFacts.

(** ** The matcher *)

Section Matcher.
Import Re Rules.

(** A repetition hands to its continuation a suffix of the text, after a
    run of characters of the set whose length is within the bounds. *)
Lemma rep_inv set s : forall lo hi pos k m,
  rep set lo hi s pos k = Some m ->
  exists w s',
    s = w ++ s' /\ all_in set w = true /\ lo <= String.length w
    /\ (forall h, hi = Some h -> String.length w <= h)
    /\ k s' (pos + String.length w) = Some m.
Proof.
  assert (stop : forall lo (hi : option nat) pos
                        (k : string -> nat -> option match_obj) m s0,
             match lo with O => k s0 pos | S _ => None end = Some m ->
             exists w s', s0 = w ++ s' /\ all_in set w = true /\ lo <= String.length w
               /\ (forall h : nat, hi = Some h -> String.length w <= h)
               /\ k s' (pos + String.length w) = Some m).
  { intros lo hi pos k m s0 H. destruct lo; [|discriminate].
    exists "", s0. simpl. rewrite Nat.add_0_r. repeat split; auto. intros; lia. }
  induction s as [|c s IH]; intros lo hi pos k m H; simpl in H.
  - now apply stop.
  - destruct (in_set set c && more hi) eqn:Ec; [|now apply stop].
    destruct (rep set (pred lo) (option_map pred hi) s (S pos) k) as [m'|] eqn:Er;
      [|now apply stop].
    injection H as ->. apply andb_true_iff in Ec. destruct Ec as [Ec Hm].
    destruct (IH _ _ _ _ _ Er) as (w & s' & -> & Hw & Hlo & Hhi & Hk).
    exists (String c w), s'. simpl. rewrite Ec, Hw.
    replace (pos + S (String.length w)) with (S pos + String.length w) by lia.
    repeat split; auto; [lia|].
    intros h ->. destruct h as [|h]; [discriminate|].
    specialize (Hhi h eq_refl). lia.
Qed.

(** Soundness of the matcher: a pattern hands to its continuation a suffix of
    the text, after a word that the pattern matches. *)
Lemma rmatch_inv r : forall s pos g k m,
  rmatch r s pos g k = Some m ->
  exists w s' g',
    s = w ++ s' /\ matches r w /\ k s' (pos + String.length w) g' = Some m.
Proof.
  induction r as [c|set|set lo hi|r1 IH1 r2 IH2|r1 IH1 r2 IH2|r IH];
    intros s pos g k m H; simpl in H.
  - destruct s as [|x s]; [discriminate|].
    destruct (Ascii.eqb_spec (Py.lower_char x) (Py.lower_char c)) as [E|]; [|discriminate].
    exists (String x ""), s, g. simpl. rewrite Nat.add_1_r.
    split; [reflexivity|]. split; [now constructor | exact H].
  - destruct s as [|x s]; [discriminate|].
    destruct (in_set set x) eqn:E; [|discriminate].
    exists (String x ""), s, g. simpl. rewrite Nat.add_1_r.
    split; [reflexivity|]. split; [now constructor | exact H].
  - destruct (rep_inv _ _ _ _ _ _ _ H) as (w & s' & -> & Hw & Hlo & Hhi & Hk).
    exists w, s', g. split; [reflexivity|]. split; [now constructor | exact Hk].
  - destruct (IH1 _ _ _ _ _ H) as (w1 & s1 & g1 & -> & M1 & H1).
    destruct (IH2 _ _ _ _ _ H1) as (w2 & s2 & g2 & -> & M2 & H2).
    exists (w1 ++ w2), s2, g2. rewrite sapp_assoc, slength_app, Nat.add_assoc.
    split; [reflexivity|]. split; [now constructor | exact H2].
  - destruct (rmatch r1 s pos g k) as [m'|] eqn:E1.
    + injection H as ->. destruct (IH1 _ _ _ _ _ E1) as (w & s' & g' & -> & M & Hk).
      exists w, s', g'. split; [reflexivity|]. split; [now apply M_alt_l | exact Hk].
    + destruct (IH2 _ _ _ _ _ H) as (w & s' & g' & -> & M & Hk).
      exists w, s', g'. split; [reflexivity|]. split; [now apply M_alt_r | exact Hk].
  - destruct (IH _ _ _ _ _ H) as (w & s' & g' & -> & M & Hk).
    exists w, s', (Some (pos, pos + String.length w)).
    split; [reflexivity|]. split; [now constructor | exact Hk].
Qed.

(** A literal consumes a word equal to it up to case and leaves group 1
    alone. *)
Lemma lit_inv label : forall s pos g k m,
  rmatch (lit label) s pos g k = Some m ->
  exists w s',
    s = w ++ s' /\ Py.lower w = Py.lower label
    /\ k s' (pos + String.length w) g = Some m.
Proof.
  assert (chr : forall c s pos g k m,
             rmatch (Chr c) s pos g k = Some m ->
             exists x s', s = String x s' /\ Py.lower_char x = Py.lower_char c
                          /\ k s' (S pos) g = Some m).
  { intros c s pos g k m H. simpl in H. destruct s as [|x s]; [discriminate|].
    destruct (Ascii.eqb_spec (Py.lower_char x) (Py.lower_char c)); [|discriminate]. eauto. }
  induction label as [|c label IH]; intros s pos g k m H.
  - simpl in H. exists "", s. rewrite Nat.add_0_r. split; [reflexivity|]. split; [reflexivity|].
    destruct s; exact H.
  - destruct label as [|c' label].
    + destruct (chr _ _ _ _ _ _ H) as (x & s' & -> & Hx & Hk).
      exists (String x ""), s'. split; [reflexivity|]. split.
      * change (Py.lower (String x "")) with (String (Py.lower_char x) "").
        now rewrite Hx.
      * simpl String.length. now rewrite Nat.add_1_r.
    + change (rmatch (Chr c) s pos g
                (fun s' pos' g' => rmatch (lit (String c' label)) s' pos' g' k) = Some m) in H.
      destruct (chr _ _ _ _ _ _ H) as (x & s' & -> & Hx & Hk).
      destruct (IH _ _ _ _ _ Hk) as (w & s2 & -> & Hw & Hk2).
      exists (String x w), s2. split; [reflexivity|]. split.
      * change (Py.lower (String x w)) with (String (Py.lower_char x) (Py.lower w)).
        rewrite Hx, Hw. reflexivity.
      * simpl String.length. now replace (pos + S (String.length w))
          with (S pos + String.length w) by lia.
Qed.

(** [search] finds its match at some position of the text. *)
Lemma search_from_inv r s : forall pos m,
  search_from r s pos = Some m ->
  exists pre s0, s = pre ++ s0 /\ match_at r s0 (pos + String.length pre) = Some m.
Proof.
  induction s as [|c s IH]; intros pos m H; simpl in H.
  - destruct (match_at r "" pos) eqn:E; [|discriminate].
    injection H as ->. exists "", "". simpl. now rewrite Nat.add_0_r.
  - destruct (match_at r (String c s) pos) eqn:E.
    + injection H as ->. exists "", (String c s). simpl. now rewrite Nat.add_0_r.
    + destruct (IH _ _ H) as (pre & s0 & -> & Hm).
      exists (String c pre), s0. simpl.
      now replace (pos + S (String.length pre)) with (S pos + String.length pre) by lia.
Qed.

End Matcher.

(** ** What each rule stores *)

Section Stored.
Import Re BaseOCREngine Rules.

Lemma rmatch_cat r1 r2 s pos g k :
  rmatch (Cat r1 r2) s pos g k
    = rmatch r1 s pos g (fun s' pos' g' => rmatch r2 s' pos' g' k).
Proof. reflexivity. Qed.

Lemma rmatch_grp r s pos g k :
  rmatch (Grp r) s pos g k = rmatch r s pos g (fun s' pos' _ => k s' pos' (Some (pos, pos'))).
Proof. reflexivity. Qed.

Lemma rmatch_rep set lo hi s pos g k :
  rmatch (Rep set lo hi) s pos g k = rep set lo hi s pos (fun s' pos' => k s' pos' g).
Proof. reflexivity. Qed.

Lemma slice_at (a b c : string) n1 n2 :
  n1 = String.length a -> n2 = String.length a + String.length b ->
  Py.slice n1 n2 (a ++ b ++ c) = b.
Proof. intros -> ->. apply slice_middle. Qed.

(** The match of a labelled rule: label, separators, group 1. *)
Lemma labelled_search label body text m :
  search (labelled label body) text = Some m -> with_label label body text m.
Proof.
  unfold search. intros H.
  destruct (search_from_inv _ _ _ _ H) as (pre & s0 & -> & Hm). clear H.
  unfold match_at, labelled in Hm. simpl Nat.add in Hm.
  rewrite rmatch_cat in Hm.
  destruct (lit_inv _ _ _ _ _ _ Hm) as (l & s1 & -> & Hl & H1). clear Hm.
  unfold star in H1. rewrite rmatch_cat, rmatch_rep in H1.
  destruct (rep_inv _ _ _ _ _ _ _ H1) as (sep & s2 & -> & Hsep & _ & _ & H2). clear H1.
  rewrite rmatch_grp in H2.
  destruct (rmatch_inv _ _ _ _ _ _ H2) as (cap & s3 & g3 & -> & Hcap & H3). clear H2.
  injection H3 as <-.
  assert (E1 : pre ++ l ++ sep ++ cap ++ s3 = (pre ++ l ++ sep) ++ cap ++ s3)
    by now rewrite !sapp_assoc.
  assert (E0 : pre ++ l ++ sep ++ cap ++ s3 = pre ++ (l ++ sep ++ cap) ++ s3)
    by now rewrite !sapp_assoc.
  assert (G1 : group1 (pre ++ l ++ sep ++ cap ++ s3)
                 (mkMatch (String.length pre)
                    (String.length pre + String.length l + String.length sep
                     + String.length cap)
                    (Some (String.length pre + String.length l + String.length sep,
                           String.length pre + String.length l + String.length sep
                           + String.length cap))) = cap).
  { unfold group1. simpl. rewrite E1. apply slice_at; rewrite ?slength_app; lia. }
  exists l, sep. rewrite G1.
  split; [|split; [exact Hl | split; [exact Hsep | split; [discriminate | exact Hcap]]]].
  unfold group0. simpl. rewrite E0. apply slice_at; rewrite ?slength_app; lia.
Qed.

Lemma seasons_inv s pos g k m :
  rmatch seasons s pos g k = Some m ->
  exists w s',
    s = w ++ s' /\ List.In (Py.lower w) season_names
    /\ k s' (pos + String.length w) g = Some m.
Proof.
  assert (one : forall name, List.In (Py.lower name) season_names ->
            rmatch (lit name) s pos g k = Some m ->
            exists w s', s = w ++ s' /\ List.In (Py.lower w) season_names
                         /\ k s' (pos + String.length w) g = Some m).
  { intros name Hn H. destruct (lit_inv _ _ _ _ _ _ H) as (w & s' & -> & Hw & Hk).
    exists w, s'. rewrite Hw. auto. }
  unfold seasons. intros H.
  repeat (cbn [rmatch] in H;
          match type of H with
          | match ?x with Some _ => _ | None => _ end = Some _ =>
              let E := fresh "E" in
              destruct x eqn:E;
              [injection H as ->; eapply one; [|exact E]; vm_compute; tauto|]
          end).
  eapply one; [|exact H]. vm_compute; tauto.
Qed.

(** The match of the rule without a label. *)
Lemma bare_search text m :
  search bare_term text = Some m -> bare_token (group0 text m).
Proof.
  unfold search. intros H.
  destruct (search_from_inv _ _ _ _ H) as (pre & s0 & -> & Hm). clear H.
  unfold match_at, bare_term in Hm. simpl Nat.add in Hm.
  rewrite rmatch_cat, rmatch_grp in Hm.
  destruct (seasons_inv _ _ _ _ _ Hm) as (season & s1 & -> & Hseason & H1). clear Hm.
  unfold plus, times in H1. rewrite rmatch_cat, rmatch_rep in H1.
  destruct (rep_inv _ _ _ _ _ _ _ H1) as (ws & s2 & -> & Hws & Hlen & _ & H2). clear H1.
  rewrite rmatch_rep in H2.
  destruct (rep_inv _ _ _ _ _ _ _ H2) as (year & s3 & -> & Hyear & Hlo & Hhi & H3). clear H2.
  injection H3 as <-.
  exists season, ws, year. unfold group0. simpl.
  split; [|repeat split; auto].
  - rewrite <- (sapp_assoc ws year s3), <- (sapp_assoc season (ws ++ year) s3).
    apply slice_at; [reflexivity|]. rewrite !slength_app. lia.
  - intros ->. simpl in Hlen. lia.
  - specialize (Hhi 4 eq_refl). lia.
Qed.

Lemma first_match_in ps text p m :
  first_match ps text = Some (p, m) -> List.In p ps /\ search p text = Some m.
Proof.
  induction ps as [|q ps IH]; simpl; [discriminate|].
  destruct (search q text) eqn:E.
  - intros [= <- <-]. auto.
  - intros H. destruct (IH H). auto.
Qed.

Lemma first_hit_search {B} (f : match_obj -> B) text ps :
  first_hit (fun p => option_map f (search p text)) ps
    = option_map (fun pm => f (snd pm)) (first_match ps text).
Proof.
  induction ps as [|q ps IH]; simpl; [reflexivity|].
  destruct (search q text); simpl; [reflexivity | exact IH].
Qed.

Lemma first_hit_name text ps p m :
  first_match ps text = Some (p, m) ->
  2 <= List.length (Py.split (group1 text m)) ->
  first_hit (name_rule text) ps = Some (group1 text m).
Proof.
  intros H Hlen. induction ps as [|q ps IH]; simpl in *; [discriminate|].
  unfold name_rule at 1. destruct (search q text) eqn:E.
  - injection H as <- <-. apply Nat.leb_le in Hlen. now rewrite Hlen.
  - now apply IH.
Qed.

Lemma get_assign key key' hit (fields : FieldRecord) :
  Dict.get key (assign key' hit fields) =
    if String.eqb key key'
    then match hit with Some v => Some v | None => Dict.get key fields end
    else Dict.get key fields.
Proof.
  destruct (String.eqb_spec key key') as [->|Hne]; destruct hit; simpl; try reflexivity.
  - apply get_set_same.
  - now apply get_set_other.
Qed.

Lemma parse_get text :
  let stored hit := Some (match hit with Some v => v | None => "" end) in
  Dict.get "FullName" (parse_id_card_fields text)
    = stored (first_hit (name_rule text) name_patterns)
  /\ Dict.get "Department" (parse_id_card_fields text)
    = stored (first_hit (dept_rule text) dept_patterns)
  /\ Dict.get "Enrollment" (parse_id_card_fields text)
    = stored (first_hit (year_rule text) year_patterns)
  /\ Dict.get "BloodGroup" (parse_id_card_fields text)
    = stored (first_hit (blood_rule text) blood_patterns)
  /\ Dict.get "Validity" (parse_id_card_fields text)
    = stored (first_hit (validity_rule text) validity_patterns).
Proof.
  unfold parse_id_card_fields. rewrite !get_assign. cbn [String.eqb Ascii.eqb Bool.eqb].
  repeat split; match goal with |- context [first_hit ?f ?l] => destruct (first_hit f l) end;
    reflexivity.
Qed.

(** C10. The Enrollment and Validity loops store group 0.  For a labelled
    rule that is the label, the separators and the season-and-year token:
    the label is part of the stored value.  For the rule without a label
    group 0 is the token itself.  FullName, Department and BloodGroup store
    group 1, which is what follows the label and the separators (Department
    stripped, BloodGroup in upper case). *)
Theorem stored_field_values text :
  (forall p m, first_match year_patterns text = Some (p, m) ->
     Dict.get "Enrollment" (parse_id_card_fields text) = Some (group0 text m)
     /\ ((p = labelled "Enrollment" term_year /\ with_label "Enrollment" term_year text m)
         \/ (p = labelled "Session" term_year /\ with_label "Session" term_year text m)
         \/ (p = bare_term /\ bare_token (group0 text m))))
  /\ (forall p m, first_match validity_patterns text = Some (p, m) ->
     Dict.get "Validity" (parse_id_card_fields text) = Some (group0 text m)
     /\ ((p = labelled "Valid" term_year /\ with_label "Valid" term_year text m)
         \/ (p = labelled "Validity" term_year /\ with_label "Validity" term_year text m)))
  /\ (forall p m, first_match name_patterns text = Some (p, m) ->
     2 <= List.length (Py.split (group1 text m)) ->
     Dict.get "FullName" (parse_id_card_fields text) = Some (group1 text m)
     /\ (with_label "Name" three_words text m \/ with_label "Full Name" three_words text m))
  /\ (forall p m, first_match dept_patterns text = Some (p, m) ->
     Dict.get "Department" (parse_id_card_fields text) = Some (Py.strip (group1 text m))
     /\ (with_label "Department" (plus dept_chars) text m \/ with_label "Dept" (plus dept_chars) text m))
  /\ (forall p m, first_match blood_patterns text = Some (p, m) ->
     Dict.get "BloodGroup" (parse_id_card_fields text) = Some (Py.upper (group1 text m))
     /\ (with_label "Blood" blood_body text m \/ with_label "Blood Group" blood_body text m))
  /\ Dict.get "Enrollment" (parse_id_card_fields "Enrollment: Spring 2024")
       = Some "Enrollment: Spring 2024"
  /\ Dict.get "Validity" (parse_id_card_fields "Valid: Fall 2025") = Some "Valid: Fall 2025"
  /\ Dict.get "Enrollment" (parse_id_card_fields "Valid: Fall 2025") = Some "Fall 2025".
Proof.
  destruct (parse_get text) as (Gname & Gdept & Gyear & Gblood & Gvalid).
  split; [|split; [|split; [|split; [|split]]]].
  - intros p m H. split.
    + rewrite Gyear. unfold year_rule. rewrite first_hit_search, H. reflexivity.
    + apply first_match_in in H. destruct H as [Hin Hs]. simpl in Hin.
      destruct Hin as [<-|[<-|[<-|[]]]].
      * left. split; [reflexivity | exact (labelled_search "Enrollment" term_year _ _ Hs)].
      * right; left. split; [reflexivity | exact (labelled_search "Session" term_year _ _ Hs)].
      * right; right. split; [reflexivity | exact (bare_search _ _ Hs)].
  - intros p m H. split.
    + rewrite Gvalid. unfold validity_rule. rewrite first_hit_search, H. reflexivity.
    + apply first_match_in in H. destruct H as [Hin Hs]. simpl in Hin.
      destruct Hin as [<-|[<-|[]]].
      * left. split; [reflexivity | exact (labelled_search "Valid" term_year _ _ Hs)].
      * right. split; [reflexivity | exact (labelled_search "Validity" term_year _ _ Hs)].
  - intros p m H Hlen. split.
    + rewrite Gname, (first_hit_name text _ p m H Hlen). reflexivity.
    + apply first_match_in in H. destruct H as [Hin Hs]. simpl in Hin.
      destruct Hin as [<-|[<-|[]]]; [left | right].
      * exact (labelled_search "Name" three_words _ _ Hs).
      * exact (labelled_search "Full Name" three_words _ _ Hs).
  - intros p m H. split.
    + rewrite Gdept. unfold dept_rule. rewrite first_hit_search, H. reflexivity.
    + apply first_match_in in H. destruct H as [Hin Hs]. simpl in Hin.
      destruct Hin as [<-|[<-|[]]]; [left | right].
      * exact (labelled_search "Department" (plus dept_chars) _ _ Hs).
      * exact (labelled_search "Dept" (plus dept_chars) _ _ Hs).
  - intros p m H. split.
    + rewrite Gblood. unfold blood_rule. rewrite first_hit_search, H. reflexivity.
    + apply first_match_in in H. destruct H as [Hin Hs]. simpl in Hin.
      destruct Hin as [<-|[<-|[]]]; [left | right].
      * exact (labelled_search "Blood" blood_body _ _ Hs).
      * exact (labelled_search "Blood Group" blood_body _ _ Hs).
  - repeat split; vm_compute; reflexivity.
Qed.

Lemma stored_field_values_witness :
  Dict.get "Enrollment" (parse_id_card_fields "Session: Fall 2023")
    = Some "Session: Fall 2023".
Proof.
  destruct (stored_field_values "Session: Fall 2023") as (H & _).
  destruct (H (labelled "Session" term_year) (mkMatch 0 18 (Some (9, 18)))) as (G & _).
  - vm_compute. reflexivity.
  - exact G.
Defined.

Lemma upper_length (a : string) : String.length (Py.upper a) = String.length a.
Proof. unfold Py.upper. induction a as [|x a IH]; simpl; [reflexivity | now rewrite IH]. Qed.

(** A stored blood group is empty or has exactly two characters. *)
Lemma blood_group_length text :
  exists v,
    Dict.get "BloodGroup" (parse_id_card_fields text) = Some v
    /\ (String.length v = 0 \/ String.length v = 2).
Proof.
  destruct (parse_get text) as (_ & _ & _ & Gblood & _).
  rewrite Gblood. unfold blood_rule. rewrite first_hit_search.
  destruct (first_match blood_patterns text) as [[p m]|] eqn:E; simpl.
  - eexists. split; [reflexivity|]. right. rewrite upper_length.
    apply first_match_in in E. destruct E as [Hin Hs].
    assert (M : matches blood_body (group1 text m)).
    { simpl in Hin. destruct Hin as [<-|[<-|[]]].
      - destruct (labelled_search "Blood" blood_body _ _ Hs) as (l & sep & _ & _ & _ & _ & M).
        exact M.
      - destruct (labelled_search "Blood Group" blood_body _ _ Hs)
          as (l & sep & _ & _ & _ & _ & M).
        exact M. }
    unfold blood_body in M. inversion M as [| | |r1 r2 w1 w2 M1 M2| | |]; subst.
    inversion M1; subst. inversion M2; subst. reflexivity.
  - eexists. split; [reflexivity|]. now left.
Qed.

(** C4. The set [[A|B|AB|O]] matches one character, so the two-letter group
    AB is never captured: "Blood: AB+" and "Blood: AB-" leave BloodGroup
    empty, and on no text at all is the stored blood group "AB+" or "AB-".
    The one-letter groups are captured and upper-cased. *)
Theorem blood_group_AB_is_lost :
  Dict.get "BloodGroup" (parse_id_card_fields "Blood: AB+") = Some ""
  /\ Dict.get "BloodGroup" (parse_id_card_fields "Blood: AB-") = Some ""
  /\ Dict.get "BloodGroup"
       (parse_id_card_fields (Samples.lines ["Name: x"; "Blood: AB+"; "end"])) = Some ""
  /\ (forall text,
        Dict.get "BloodGroup" (parse_id_card_fields text) <> Some "AB+"
        /\ Dict.get "BloodGroup" (parse_id_card_fields text) <> Some "AB-")
  /\ map (fun g => Dict.get "BloodGroup" (parse_id_card_fields ("Blood: " ++ g)))
         ["A+"; "A-"; "B+"; "B-"; "O+"; "O-"; "a+"; "b-"; "o+"]
     = map Some ["A+"; "A-"; "B+"; "B-"; "O+"; "O-"; "A+"; "B-"; "O+"].
Proof.
  split; [vm_compute; reflexivity|].
  split; [vm_compute; reflexivity|].
  split; [vm_compute; reflexivity|].
  split; [|vm_compute; reflexivity].
  intros text. destruct (blood_group_length text) as (v & -> & Hv).
  split; intros [= ->]; simpl in Hv; destruct Hv; discriminate.
Qed.

End Stored.

(** * Further properties *)

(** ** The confidence heuristic *)

Section Confidence.
Import BaseOCREngine.
Local Open Scope Q_scope.

Lemma min_one_cases (x : Q) :
  (1 <= x /\ min_one x = 1) \/ (x < 1 /\ min_one x = x).
Proof.
  unfold min_one. destruct (Qle_bool 1 x) eqn:E.
  - left. split; [now apply Qle_bool_iff | reflexivity].
  - right. split; [|reflexivity]. apply Qnot_le_lt. intros H.
    apply Qle_bool_iff in H. congruence.
Qed.

Lemma ratio_nonneg (n : nat) : 0 <= Z.of_nat n # 1000.
Proof. unfold Qle. simpl. lia. Qed.

Lemma ratio_le (n n' : nat) : (n <= n')%nat -> Z.of_nat n # 1000 <= Z.of_nat n' # 1000.
Proof. intros H. unfold Qle. simpl. lia. Qed.

Lemma confidence_of_range (text : string) : 0 <= confidence_of text <= 1.
Proof.
  unfold confidence_of.
  destruct (min_one_cases (Z.of_nat (String.length (Py.strip text)) # 1000))
    as [[H E]|[H E]]; rewrite E.
  - split; [discriminate | apply Qle_refl].
  - split; [apply ratio_nonneg | now apply Qlt_le_weak].
Qed.

(** X1. The confidence of a text lies between 0 and 1; it is the trimmed
    length over 1000 below 1000 characters and exactly 1 from 1000 on; it is
    0 exactly for a text that is empty once trimmed; a longer trimmed text
    never has a smaller confidence. *)
Theorem confidence_of_heuristic (text : string) :
  0 <= confidence_of text <= 1
  /\ ((String.length (Py.strip text) < 1000)%nat ->
      confidence_of text = (Z.of_nat (String.length (Py.strip text)) # 1000)
      /\ confidence_of text < 1)
  /\ ((1000 <= String.length (Py.strip text))%nat -> confidence_of text = 1)
  /\ (confidence_of text == 0 <-> Py.strip text = ""%string)
  /\ (forall text',
        (String.length (Py.strip text) <= String.length (Py.strip text'))%nat ->
        confidence_of text <= confidence_of text').
Proof.
  unfold confidence_of.
  set (n := String.length (Py.strip text)).
  assert (Hn : Py.strip text = ""%string <-> n = 0%nat).
  { unfold n. destruct (Py.strip text); simpl; split; (reflexivity || discriminate). }
  destruct (min_one_cases (Z.of_nat n # 1000)) as [[H1 E]|[H1 E]]; rewrite E.
  - assert (Hbig : (1000 <= n)%nat) by (unfold Qle in H1; simpl in H1; lia).
    split; [split; [discriminate | apply Qle_refl]|].
    split; [intros; lia|]. split; [reflexivity|]. split.
    + rewrite Hn. split; [discriminate | lia].
    + intros text' Hle.
      destruct (min_one_cases (Z.of_nat (String.length (Py.strip text')) # 1000))
        as [[H2 E2]|[H2 E2]]; rewrite E2; [apply Qle_refl|].
      exfalso. unfold Qlt in H2. simpl in H2. lia.
  - assert (Hsmall : (n < 1000)%nat) by (unfold Qlt in H1; simpl in H1; lia).
    split; [split; [apply ratio_nonneg | now apply Qlt_le_weak]|].
    split; [auto|]. split; [intros; lia|]. split.
    + rewrite Hn. unfold Qeq. simpl. lia.
    + intros text' Hle.
      destruct (min_one_cases (Z.of_nat (String.length (Py.strip text')) # 1000))
        as [[H2 E2]|[H2 E2]]; rewrite E2.
      * now apply Qlt_le_weak.
      * now apply ratio_le.
Qed.

(** X2. Whatever the engine and the image, the result of [process_image]
    has a confidence between 0 and 1, and it names the engine that produced
    it. *)
Theorem every_result_confidence_in_range (e : Engine) (image_path : string) :
  exists r,
    call_process_image e image_path = Returned r
    /\ 0 <= confidence r <= 1
    /\ engine r = engine_name_of e.
Proof.
  destruct e as [name ex|name msg]; simpl.
  - unfold process_image, extract_with_confidence, try_except, bind.
    destruct (ex image_path) as [text|err]; eexists; (split; [reflexivity|]); simpl.
    + split; [|reflexivity]. apply confidence_of_range.
    + split; [|reflexivity]. split; discriminate.
  - eexists. split; [reflexivity|]. simpl. split; [|reflexivity]. split; discriminate.
Qed.

End Confidence.

(** ** Trimming *)

Section Trimming.

Lemma rstrip_idem (s : string) : Py.rstrip (Py.rstrip s) = Py.rstrip s.
Proof.
  induction s as [|c s IH]; simpl; [reflexivity|].
  destruct (Py.isspace c && Py.is_empty (Py.rstrip s)) eqn:E; simpl; [reflexivity|].
  now rewrite IH, E.
Qed.

Lemma lstrip_head (s : string) :
  Py.lstrip s = "" \/ exists c s', Py.lstrip s = String c s' /\ Py.isspace c = false.
Proof.
  induction s as [|c s IH]; simpl; [now left|].
  destruct (Py.isspace c) eqn:E; [exact IH|]. right. eauto.
Qed.

Lemma rstrip_nonspace c s :
  Py.isspace c = false -> Py.rstrip (String c s) = String c (Py.rstrip s).
Proof. intros H. cbn [Py.rstrip]. now rewrite H. Qed.

Lemma lstrip_nonspace c s : Py.isspace c = false -> Py.lstrip (String c s) = String c s.
Proof. intros H. cbn [Py.lstrip]. now rewrite H. Qed.

(** [strip] is idempotent. *)
Lemma strip_idem (s : string) : Py.strip (Py.strip s) = Py.strip s.
Proof.
  unfold Py.strip. destruct (lstrip_head s) as [->|(c & s' & -> & Hc)]; [reflexivity|].
  rewrite (rstrip_nonspace c s' Hc), (lstrip_nonspace c _ Hc), (rstrip_nonspace c _ Hc).
  now rewrite rstrip_idem.
Qed.

End Trimming.

(** ** Further properties of the vote *)

Section Vote.
Import BaseOCREngine OCRProcessor Voting More.

Lemma votes_two_values (v w : string) (vs : list string) :
  v <> w -> votes v vs + votes w vs <= List.length vs.
Proof.
  intros Hne. unfold votes. induction vs as [|x vs IH]; simpl; [lia|].
  destruct (string_dec x v), (string_dec x w); subst; try congruence; lia.
Qed.

(** X3. For each of the seven fields, a value that more than half of the
    surviving values (the trimmed field values of the engines that pass the
    filter) agree on is the value of the best-guess record for the field,
    wherever it stands in the iteration order. *)
Theorem strict_majority_wins (field : string) (results : Dict.t EngineResult) (v : string) :
  In field field_names ->
  let vs :=
    filter survives
      (map (fun item => Py.strip (Dict.get_default field "" (structured_data (snd item))))
         (Dict.items results)) in
  List.length vs < 2 * votes v vs ->
  Dict.get field (_determine_best_guess results) = Some v.
Proof.
  intros Hf vs. change vs with (survivors field results). clear vs. intros Hmaj.
  rewrite best_guess_get by exact Hf. f_equal.
  destruct (string_dec (best_value field results) v) as [E|Hne]; [exact E|].
  exfalso.
  destruct (best_value_located field results) as (_ & _ & _ & _ & Hmax & _).
  { intros E. rewrite E in Hmaj. simpl in Hmaj. lia. }
  pose proof (Hmax v) as Hv.
  pose proof (votes_two_values _ _ (survivors field results) Hne). lia.
Qed.

Lemma strict_majority_wins_witness :
  Dict.get "ID" (_determine_best_guess (Samples.abc_results "ID")) = Some "X".
Proof.
  apply (strict_majority_wins "ID" (Samples.abc_results "ID") "X").
  - simpl; tauto.
  - vm_compute. lia.
Defined.

Lemma survives_spec (v : string) :
  survives v = true -> v <> "" /\ Py.lower v <> "not found" /\ Py.lower v <> "net found".
Proof.
  intros H. repeat split; intros E;
    assert (D : discarded v) by (unfold discarded; auto);
    apply survives_false_iff in D; congruence.
Qed.

(** X4. A value of the best guess is the literal "Not Found" or a value some
    engine reported for that field, trimmed: it is never empty, never has
    surrounding whitespace, and never is "not found" or "net found" in
    another case. *)
Theorem best_guess_values_are_clean (results : Dict.t EngineResult) :
  Forall
    (fun field =>
       exists v,
         Dict.get field (_determine_best_guess results) = Some v
         /\ (v = "Not Found"
             \/ (v <> "" /\ Py.strip v = v
                 /\ Py.lower v <> "not found" /\ Py.lower v <> "net found"
                 /\ exists item,
                      In item results
                      /\ v = Py.strip (Dict.get_default field "" (structured_data (snd item))))))
    field_names.
Proof.
  apply Forall_forall. intros field Hf. exists (best_value field results).
  split; [now apply best_guess_get|].
  destruct (survivors field results) as [|x xs] eqn:E.
  - left. now apply best_value_no_survivor.
  - right.
    destruct (best_value_located field results) as (pre & post & Evs & _);
      [rewrite E; discriminate|].
    assert (Hin : In (best_value field results) (survivors field results)).
    { rewrite Evs at 1. apply in_app_iff. right. now left. }
    apply survivors_in in Hin. destruct Hin as (item & Hitem & Hv & Hs).
    destruct (survives_spec _ Hs) as (H1 & H2 & H3).
    split; [exact H1|]. split.
    + rewrite <- Hv. unfold value_of. apply strip_idem.
    + split; [exact H2|]. split; [exact H3|]. exists item. split; [exact Hitem|].
      symmetry. exact Hv.
Qed.

Lemma survivors_voters field results :
  In field field_names ->
  survivors field (voters results) = survivors field results.
Proof.
  intros Hf. unfold survivors, voters, Dict.items.
  induction results as [|item results IH]; simpl; [reflexivity|].
  destruct (casts_a_vote (snd item)) eqn:E; simpl.
  - now rewrite IH.
  - rewrite IH. destruct (survives (value_of field (snd item))) eqn:Es; [|reflexivity].
    exfalso. unfold casts_a_vote in E.
    assert (existsb (fun f => survives (value_of f (snd item))) field_names = true).
    { apply existsb_exists. exists field. auto. }
    congruence.
Qed.

Lemma best_value_voters field results :
  In field field_names -> best_value field (voters results) = best_value field results.
Proof.
  intros Hf. unfold best_value, Dict.items.
  now rewrite !tally_survivors, survivors_voters.
Qed.

Lemma empty_record_casts_no_vote (r : EngineResult) :
  structured_data r = Dict.empty -> casts_a_vote r = false.
Proof.
  intros H. unfold casts_a_vote, value_of. rewrite H. reflexivity.
Qed.

(** X5. Results that cast no vote do not influence the best guess: the vote
    over all results is the vote over the results with at least one
    surviving value.  A result with an empty field record (a degraded or a
    dummy result) is never among those. *)
Theorem silent_results_do_not_vote (results : Dict.t EngineResult) :
  _determine_best_guess (voters results) = _determine_best_guess results
  /\ (forall item, In item (voters results) ->
        In item results /\ structured_data (snd item) <> Dict.empty).
Proof.
  split.
  - unfold _determine_best_guess. simpl.
    rewrite !best_value_voters by (simpl; tauto). reflexivity.
  - intros item Hin. unfold voters in Hin. apply filter_In in Hin.
    destruct Hin as [Hin Hv]. split; [exact Hin|].
    intros E. apply empty_record_casts_no_vote in E. congruence.
Qed.

End Vote.

(** ** Further properties of the orchestrator *)

Section Registry.
Import BaseOCREngine OCRProcessor Voting More.

Lemma get_some_of_key {V} (d : Dict.t V) k :
  In k (Dict.keys d) -> exists v, Dict.get k d = Some v.
Proof.
  intros H. destruct (Dict.get k d) eqn:E; [eauto|].
  apply get_none_iff in E. contradiction.
Qed.

(** X6. For a registered identifier, [process_single] returns the very
    result that [process_all] stores under that identifier. *)
Theorem process_single_agrees_with_process_all
    (engines : EngineRegistry) (image_path engine_name : string) :
  NoDup (Dict.keys engines) ->
  In engine_name (Dict.keys engines) ->
  exists report r,
    process_all engines image_path = Returned report
    /\ process_single engines image_path engine_name = Returned r
    /\ Dict.get engine_name (results_by_engine report) = Some r.
Proof.
  intros Hnd Hin.
  destruct (get_some_of_key engines engine_name Hin) as [e He].
  destruct (call_process_image_returns e image_path) as [r Hr].
  unfold process_all, Dict.items. rewrite process_all_fold by exact Hnd. simpl app.
  eexists. exists r. split; [reflexivity|]. simpl. split.
  - unfold process_single, Dict.mem. rewrite He. simpl. exact Hr.
  - rewrite get_stored, He. simpl. unfold stored_result. simpl. now rewrite Hr.
Qed.

Lemma process_single_agrees_with_process_all_witness :
  exists report r,
    process_all Samples.registry "card.png" = Returned report
    /\ process_single Samples.registry "card.png" "easy_ocr" = Returned r
    /\ Dict.get "easy_ocr" (results_by_engine report) = Some r.
Proof.
  apply (process_single_agrees_with_process_all Samples.registry "card.png" "easy_ocr").
  - vm_compute. repeat constructor; simpl; intuition discriminate.
  - vm_compute. tauto.
Defined.

Lemma init_keys (tesseract easy_ocr : outcome Engine) :
  NoDup (Dict.keys (init tesseract easy_ocr))
  /\ incl (Dict.keys (init tesseract easy_ocr))
       ["tesseract"; "easy_ocr"; "paddle_ocr"; "ocropus"].
Proof.
  destruct tesseract, easy_ocr; simpl;
    (split; [repeat constructor; simpl; intuition discriminate
            | intros k Hk; simpl in *; tauto]).
Qed.

(** X7. Whatever backends could be constructed, [process_all] over the
    registry of [__init__] returns a report with the keys of that registry,
    which are distinct and among the four identifiers; a backend whose
    construction raised has no entry; the entries of the two dummy engines
    are their fixed messages with confidence 0 and no field, so only
    "tesseract" and "easy_ocr" can cast a vote. *)
Theorem default_registry_report (tesseract easy_ocr : outcome Engine) (image_path : string) :
  exists report,
    process_all (init tesseract easy_ocr) image_path = Returned report
    /\ Dict.keys (results_by_engine report) = Dict.keys (init tesseract easy_ocr)
    /\ NoDup (Dict.keys (results_by_engine report))
    /\ incl (Dict.keys (results_by_engine report))
         ["tesseract"; "easy_ocr"; "paddle_ocr"; "ocropus"]
    /\ (Dict.get "tesseract" (results_by_engine report) = None
          <-> exists err, tesseract = Raised err)
    /\ (Dict.get "easy_ocr" (results_by_engine report) = None
          <-> exists err, easy_ocr = Raised err)
    /\ Dict.get "paddle_ocr" (results_by_engine report)
         = Some (degraded "PaddleOCR disabled (requires paddlepaddle)" "paddle_ocr")
    /\ Dict.get "ocropus" (results_by_engine report)
         = Some (degraded "Using Tesseract as fallback" "ocropus")
    /\ (forall item, In item (voters (results_by_engine report)) ->
          fst item = "tesseract" \/ fst item = "easy_ocr").
Proof.
  destruct (init_keys tesseract easy_ocr) as [Hnd Hincl].
  unfold process_all, Dict.items. rewrite process_all_fold by exact Hnd. simpl app.
  eexists. split; [reflexivity|]. simpl results_by_engine.
  assert (Hkeys : Dict.keys (map (stored_result image_path) (init tesseract easy_ocr))
                  = Dict.keys (init tesseract easy_ocr)).
  { unfold Dict.keys. rewrite map_map. apply map_ext. now intros [k e]. }
  split; [exact Hkeys|]. rewrite Hkeys.
  split; [exact Hnd|]. split; [exact Hincl|].
  rewrite !get_stored.
  split; [|split; [|split; [|split]]].
  - destruct tesseract, easy_ocr; simpl; split;
      try discriminate; try (intros [err H]; discriminate); eauto.
  - destruct tesseract, easy_ocr; simpl; split;
      try discriminate; try (intros [err H]; discriminate); eauto.
  - destruct tesseract, easy_ocr; reflexivity.
  - destruct tesseract, easy_ocr; reflexivity.
  - intros item Hin. unfold voters in Hin. apply filter_In in Hin.
    destruct Hin as [Hin Hv]. apply in_map_iff in Hin.
    destruct Hin as ([k e] & <- & Hin). simpl.
    destruct tesseract, easy_ocr; simpl in Hin;
      repeat (destruct Hin as [Hin|Hin];
              [injection Hin as <- <-; auto; try (vm_compute in Hv; discriminate)|]);
      destruct Hin.
Qed.

End Registry.

(** ** The two real backends on an unreadable image *)

Section Unreadable.
Import BaseOCREngine.

Variable ndarray : Type.
Variable imread imread_grayscale : string -> option ndarray.
Variable cvtColor_gray threshold_otsu medianBlur3 : ndarray -> outcome ndarray.
Variable pil_image : Type.
Variable fromarray : option ndarray -> outcome pil_image.
Variable image_to_string : pil_image -> outcome string.
Variable readtext : ndarray -> outcome (list string).

(** X8. On an image that cannot be decoded, the EasyOCR engine yields the
    degraded result with the text "Error: EasyOCR extraction failed: Could
    not read image".  The Tesseract engine hands the result of the grayscale
    decode to [Image.fromarray]; when that raises, its degraded result
    carries the message of that exception, not the "Could not read image
    from ..." of the preprocessing. *)
Theorem unreadable_image_degrades (image_path : string) :
  imread image_path = None ->
  call_process_image (EasyOCREngine ndarray imread readtext) image_path
    = Returned (degraded "Error: EasyOCR extraction failed: Could not read image" "easy_ocr")
  /\ (forall e,
        fromarray (imread_grayscale image_path) = Raised e ->
        call_process_image
          (TesseractEngine ndarray imread imread_grayscale cvtColor_gray threshold_otsu
             medianBlur3 pil_image fromarray image_to_string) image_path
        = Returned (degraded ("Error: Tesseract extraction failed: " ++ exn_msg e) "tesseract")).
Proof.
  intros H. split.
  - simpl. unfold process_image, extract_with_confidence, bind, easyocr_extract_text, try_except.
    now rewrite H.
  - intros e He. simpl.
    unfold process_image, extract_with_confidence, bind, tesseract_extract_text,
      preprocess_image, try_except.
    rewrite H. unfold bind. now rewrite He.
Qed.

End Unreadable.

Lemma unreadable_image_degrades_witness :
  call_process_image
    (EasyOCREngine unit Samples.no_image (fun _ => Returned ["text"])) "missing.png"
  = Returned (BaseOCREngine.degraded
                "Error: EasyOCR extraction failed: Could not read image" "easy_ocr").
Proof.
  apply (unreadable_image_degrades unit Samples.no_image Samples.no_image
           Samples.pass Samples.pass Samples.pass unit
           (fun _ => Raised (mkExn AttributeError "no array"))
           (fun _ => Returned "text") (fun _ => Returned ["text"]) "missing.png").
  reflexivity.
Defined.

(** ** Characters of the sets *)

Section Characters.
Import Re BaseOCREngine Rules More.

Ltac each_ascii x := destruct x as [[] [] [] [] [] [] [] []]; vm_compute; try reflexivity.

Lemma letters_is_letter x : in_set letters x = is_letter x.
Proof. each_ascii x. Qed.



Lemma alnum_is_alnum x : in_set alnum x = is_alnum x.
Proof. each_ascii x. Qed.

Lemma digit_is_digit x : in_set [Digit] x = Py.isdigit x.
Proof. each_ascii x. Qed.



Lemma all_in_all_chars set p w :
  (forall x, in_set set x = p x) -> all_in set w = all_chars p w.
Proof.
  intros H. induction w as [|c w IH]; simpl; [reflexivity | now rewrite H, IH].
Qed.

Lemma all_chars_impl (p q : ascii -> bool) w :
  (forall x, p x = true -> q x = true) -> all_chars p w = true -> all_chars q w = true.
Proof.
  intros H. induction w as [|c w IH]; simpl; [reflexivity|].
  intros Hw. apply andb_true_iff in Hw. destruct Hw as [Hc Hw].
  now rewrite (H c Hc), IH.
Qed.


Lemma all_chars_app p a b :
  all_chars p (a ++ b) = all_chars p a && all_chars p b.
Proof.
  induction a as [|c a IH]; simpl; [reflexivity | now rewrite IH, andb_assoc].
Qed.

Lemma any_char_app p a b :
  any_char p (a ++ b) = any_char p a || any_char p b.
Proof.
  induction a as [|c a IH]; simpl; [reflexivity | now rewrite IH, orb_assoc].
Qed.

End Characters.

(** ** Soundness and completeness of [search] *)

Section Search.
Import Re BaseOCREngine Rules More.

(** A match of [search] is a word of the pattern inside the text, and group 0
    is that word. *)
Lemma search_sound r text m :
  search r text = Some m ->
  exists pre w post,
    text = pre ++ w ++ post /\ matches r w /\ group0 text m = w.
Proof.
  unfold search. intros H.
  destruct (search_from_inv _ _ _ _ H) as (pre & s0 & -> & Hm). clear H.
  unfold match_at in Hm. simpl Nat.add in Hm.
  destruct (rmatch_inv _ _ _ _ _ _ Hm) as (w & post & g & -> & Hw & Hk).
  injection Hk as <-.
  exists pre, w, post. split; [reflexivity|]. split; [exact Hw|].
  unfold group0. simpl. apply slice_at; [reflexivity | lia].
Qed.

Lemma last_group_match r : forall body s pos g start m,
  last_group r = Some body ->
  rmatch r s pos g (fun _ pos' g' => Some (mkMatch start pos' g')) = Some m ->
  exists w cap s',
    s = w ++ cap ++ s' /\ matches body cap
    /\ m = mkMatch start (pos + String.length w + String.length cap)
             (Some (pos + String.length w, pos + String.length w + String.length cap)).
Proof.
  induction r as [c|set|set lo hi|r1 IH1 r2 IH2|r1 IH1 r2 IH2|r IH];
    intros body s pos g start m Hl H; simpl in Hl; try discriminate.
  - destruct (ngroups r1 =? 0); [|discriminate].
    rewrite rmatch_cat in H.
    destruct (rmatch_inv _ _ _ _ _ _ H) as (w1 & s1 & g1 & -> & _ & H1).
    destruct (IH2 _ _ _ _ _ _ Hl H1) as (w2 & cap & s' & -> & Hcap & ->).
    exists (w1 ++ w2), cap, s'. rewrite sapp_assoc, slength_app, !Nat.add_assoc. auto.
  - injection Hl as <-. rewrite rmatch_grp in H.
    destruct (rmatch_inv _ _ _ _ _ _ H) as (cap & s' & g' & -> & Hcap & Hk).
    injection Hk as <-.
    exists "", cap, s'. simpl. rewrite Nat.add_0_r. auto.
Qed.

(** For a pattern that ends with its group, group 1 is a word of the body
    of the group, at the end of group 0. *)
Lemma last_group_search r body text m :
  last_group r = Some body ->
  search r text = Some m ->
  exists w, group0 text m = w ++ group1 text m /\ matches body (group1 text m).
Proof.
  unfold search. intros Hl H.
  destruct (search_from_inv _ _ _ _ H) as (pre & s0 & -> & Hm). clear H.
  unfold match_at in Hm. simpl Nat.add in Hm.
  destruct (last_group_match _ _ _ _ _ _ _ Hl Hm) as (w & cap & s' & -> & Hcap & ->).
  assert (G1 : group1 (pre ++ w ++ cap ++ s')
                 (mkMatch (String.length pre)
                    (String.length pre + String.length w + String.length cap)
                    (Some (String.length pre + String.length w,
                           String.length pre + String.length w + String.length cap))) = cap).
  { unfold group1. simpl.
    replace (pre ++ w ++ cap ++ s') with ((pre ++ w) ++ cap ++ s') by now rewrite sapp_assoc.
    apply slice_at; rewrite ?slength_app; lia. }
  exists w. rewrite G1. split; [|exact Hcap].
  unfold group0. simpl.
  replace (pre ++ w ++ cap ++ s') with (pre ++ (w ++ cap) ++ s') by now rewrite !sapp_assoc.
  apply slice_at; rewrite ?slength_app; lia.
Qed.

(** [search] finds a match whenever the pattern matches at some position. *)
Lemma search_from_complete r pre s0 : forall pos,
  match_at r s0 (pos + String.length pre) <> None ->
  search_from r (pre ++ s0) pos <> None.
Proof.
  induction pre as [|c pre IH]; intros pos H.
  - simpl in *. rewrite Nat.add_0_r in H.
    destruct s0; simpl; destruct (match_at r _ pos); congruence.
  - simpl. destruct (match_at r (String c (pre ++ s0)) pos); [discriminate|].
    apply IH. simpl in H. now replace (S pos + String.length pre)
      with (pos + S (String.length pre)) by lia.
Qed.

Lemma rep_exact_complete set w : forall n s' pos k,
  all_in set w = true -> String.length w = n ->
  (forall s p, k s p <> None) ->
  rep set n (Some n) (w ++ s') pos k <> None.
Proof.
  induction w as [|x w IH]; intros n s' pos k Hw Hn Hk.
  - simpl in Hn. subst n. simpl.
    destruct s' as [|c s']; simpl; [apply Hk|].
    rewrite andb_false_r. apply Hk.
  - simpl in Hn. subst n. simpl in Hw. apply andb_true_iff in Hw. destruct Hw as [Hx Hw].
    simpl. rewrite Hx. simpl.
    destruct (rep set (String.length w) (Some (String.length w)) (w ++ s') (S pos) k) eqn:E;
      [discriminate|].
    exfalso. revert E. now apply IH.
Qed.

Lemma matches_cat_inv r1 r2 w :
  matches (Cat r1 r2) w -> exists w1 w2, w = w1 ++ w2 /\ matches r1 w1 /\ matches r2 w2.
Proof. inversion 1; subst; eauto. Qed.

Lemma matches_oneof_inv set w :
  matches (OneOf set) w -> exists x, w = String x "" /\ in_set set x = true.
Proof. inversion 1; subst; eauto. Qed.

Lemma matches_chr_inv c w :
  matches (Chr c) w -> exists x, w = String x "" /\ Py.lower_char x = Py.lower_char c.
Proof. inversion 1; subst; eauto. Qed.

Lemma matches_rep_inv set lo hi w :
  matches (Rep set lo hi) w ->
  all_in set w = true /\ lo <= String.length w
  /\ (forall h, hi = Some h -> String.length w <= h).
Proof. inversion 1; subst; auto. Qed.

Lemma matches_alt_inv r1 r2 w : matches (Alt r1 r2) w -> matches r1 w \/ matches r2 w.
Proof. inversion 1; subst; auto. Qed.

Lemma matches_grp_inv r w : matches (Grp r) w -> matches r w.
Proof. inversion 1; subst; auto. Qed.

Lemma first_hit_in {A B} (f : A -> option B) (l : list A) (b : B) :
  first_hit f l = Some b -> exists a, List.In a l /\ f a = Some b.
Proof.
  induction l as [|a l IH]; simpl; [discriminate|].
  destruct (f a) eqn:E.
  - intros [= <-]. eauto.
  - intros H. destruct (IH H) as (a' & Hin & Ha). eauto.
Qed.

End Search.

(** ** The ID rules *)

Section IdRules.
Import Re BaseOCREngine Rules More.

Lemma parse_get_id_university text :
  Dict.get "ID" (parse_id_card_fields text)
    = Some (match first_hit (id_rule text) id_patterns with Some v => v | None => "" end)
  /\ Dict.get "University" (parse_id_card_fields text)
    = Some (match first_hit uni_rule (Py.split_on Py.nl text) with
            | Some v => v | None => "" end).
Proof.
  unfold parse_id_card_fields. rewrite !get_assign. cbn [String.eqb Ascii.eqb Bool.eqb].
  split; match goal with |- context [first_hit ?f ?l] => destruct (first_hit f l) end;
    reflexivity.
Qed.

Lemma bare_code_word w :
  matches (OneOf letters +++ times [Digit] 7)%re w -> is_bare_code w.
Proof.
  unfold times. intros M.
  destruct (matches_cat_inv _ _ _ M) as (w1 & d & -> & M1 & M2).
  destruct (matches_oneof_inv _ _ M1) as (x & -> & Hx).
  destruct (matches_rep_inv _ _ _ _ M2) as (Hd & Hlo & Hhi).
  exists x, d. simpl. split; [reflexivity|].
  split; [exact Hx|].
  split; [now rewrite <- (all_in_all_chars [Digit] (in_set [Digit]) d (fun y => eq_refl))|].
  specialize (Hhi 7 eq_refl). lia.
Qed.

Lemma labelled_code_word w :
  matches (upto alnum 6 10) w -> is_labelled_code w.
Proof.
  unfold upto. intros M. destruct (matches_rep_inv _ _ _ _ M) as (Hd & Hlo & Hhi).
  split; [now rewrite <- (all_in_all_chars alnum (in_set alnum) w (fun y => eq_refl))|].
  specialize (Hhi 10 eq_refl). lia.
Qed.

Lemma id_rule_shape text p v :
  List.In p id_patterns -> id_rule text p = Some v -> is_bare_code v \/ is_labelled_code v.
Proof.
  intros Hin. unfold id_rule. destruct (search p text) as [m|] eqn:E; [|discriminate].
  intros [= <-]. unfold id_patterns in Hin. cbn [List.In] in Hin.
  destruct Hin as [<-|[<-|[<-|[]]]].
  - left. change (0 <? ngroups _) with false. cbn iota.
    destruct (search_sound _ _ _ E) as (pre & w & post & _ & M & ->).
    now apply bare_code_word.
  - right. change (0 <? ngroups _) with true. cbn iota.
    match type of E with
    | search ?r _ = _ =>
        destruct (last_group_search r (upto alnum 6 10) _ _ eq_refl E) as (w & _ & M)
    end.
    now apply labelled_code_word.
  - right. change (0 <? ngroups _) with true. cbn iota.
    match type of E with
    | search ?r _ = _ =>
        destruct (last_group_search r (upto alnum 6 10) _ _ eq_refl E) as (w & _ & M)
    end.
    now apply labelled_code_word.
Qed.

(** X9. The ID field is empty, or one character of the class [[A-Za-z]]
    followed by exactly seven characters of the class [\d], or six to ten
    characters of the class [[A-Za-z0-9]], the classes being those of the
    patterns, matched with case ignored; it is never anything else,
    whatever the text. *)
Theorem id_field_shape (text : string) :
  exists v,
    Dict.get "ID" (parse_id_card_fields text) = Some v
    /\ (v = "" \/ is_bare_code v \/ is_labelled_code v).
Proof.
  destruct (parse_get_id_university text) as [G _]. rewrite G.
  eexists. split; [reflexivity|].
  destruct (first_hit (id_rule text) id_patterns) as [v|] eqn:E; [|now left].
  right. destruct (first_hit_in _ _ _ E) as (p & Hin & Hp).
  now apply (id_rule_shape text p).
Qed.

Lemma bare_code_found pre c d post :
  in_set letters c = true -> all_chars (in_set [Digit]) d = true -> String.length d = 7 ->
  search (OneOf letters +++ times [Digit] 7)%re (pre ++ String c d ++ post) <> None.
Proof.
  intros Hc Hd Hlen. unfold search. apply search_from_complete.
  unfold match_at. rewrite rmatch_cat. cbn [rmatch append].
  rewrite Hc. unfold times.
  apply rep_exact_complete; [|exact Hlen|discriminate].
  now rewrite (all_in_all_chars [Digit] (in_set [Digit]) d (fun y => eq_refl)).
Qed.

(** X10. The pattern without a label comes first: when the text holds,
    anywhere, a character of the class [[A-Za-z]] followed by seven
    characters of the class [\d] (the classes of the pattern, case
    ignored), the ID field is a code of that shape, whatever "ID:" labels
    the text holds and wherever they stand. *)
Theorem bare_code_beats_labels (pre post d : string) (c : ascii) :
  in_set letters c = true -> all_chars (in_set [Digit]) d = true -> String.length d = 7 ->
  exists v,
    Dict.get "ID" (parse_id_card_fields (pre ++ String c d ++ post)) = Some v
    /\ is_bare_code v.
Proof.
  intros Hc Hd Hlen.
  destruct (parse_get_id_university (pre ++ String c d ++ post)) as [G _]. rewrite G.
  eexists. split; [reflexivity|].
  unfold id_patterns. cbn [first_hit]. unfold id_rule at 1.
  destruct (search (OneOf letters +++ times [Digit] 7)%re (pre ++ String c d ++ post))
    as [m|] eqn:E.
  - change (0 <? ngroups _) with false. cbn iota.
    destruct (search_sound _ _ _ E) as (pre' & w & post' & _ & M & ->).
    now apply bare_code_word.
  - exfalso. revert E. now apply bare_code_found.
Qed.

Lemma bare_code_beats_labels_witness :
  exists v,
    Dict.get "ID" (parse_id_card_fields "ID: ABCDEF, card C2010074 of 2024") = Some v
    /\ is_bare_code v.
Proof.
  apply (bare_code_beats_labels "ID: ABCDEF, card " " of 2024" "2010074" "C"%char);
    reflexivity.
Defined.

End IdRules.

(** ** The name rules *)

Section NameRules.
Import Re BaseOCREngine Rules More.











End NameRules.

(** ** The Department and University rules *)

Section DeptUni.
Import Re BaseOCREngine Rules More.

Lemma all_chars_lstrip p s : all_chars p s = true -> all_chars p (Py.lstrip s) = true.
Proof.
  induction s as [|c s IH]; simpl; [reflexivity|].
  intros H. destruct (Py.isspace c); [|exact H].
  apply andb_true_iff in H. now apply IH.
Qed.

Lemma all_chars_rstrip p s : all_chars p s = true -> all_chars p (Py.rstrip s) = true.
Proof.
  induction s as [|c s IH]; simpl; [reflexivity|].
  intros H. apply andb_true_iff in H. destruct H as [Hc Hs].
  destruct (Py.isspace c && Py.is_empty (Py.rstrip s)); [reflexivity|].
  simpl. now rewrite Hc, IH.
Qed.

Lemma all_chars_strip p s : all_chars p s = true -> all_chars p (Py.strip s) = true.
Proof. intros H. unfold Py.strip. now apply all_chars_rstrip, all_chars_lstrip. Qed.

Lemma dept_char_no_digit_colon x :
  in_set dept_chars x = true -> Py.isdigit x = false /\ x <> ":"%char.
Proof.
  destruct x as [[] [] [] [] [] [] [] []]; vm_compute; intros H;
    (discriminate || (split; [reflexivity | discriminate])).
Qed.

(** X12. The Department field is a trimmed string made of the characters of
    the capture set only: letters, whitespace (line breaks included) and
    the signs of the set.  It holds no digit and no colon, and it is
    empty when no Department pattern matches. *)
Theorem department_field_shape (text : string) :
  exists v,
    Dict.get "Department" (parse_id_card_fields text) = Some v
    /\ Py.strip v = v
    /\ all_chars (in_set dept_chars) v = true
    /\ all_chars (fun c => negb (Py.isdigit c) && negb (Ascii.eqb c ":")) v = true
    /\ (first_match dept_patterns text = None -> v = "").
Proof.
  destruct (parse_get text) as (_ & G & _). rewrite G.
  unfold dept_rule. rewrite first_hit_search.
  eexists. split; [reflexivity|].
  destruct (first_match dept_patterns text) as [[p m]|] eqn:E; simpl;
    [|repeat split; reflexivity].
  assert (A : all_chars (in_set dept_chars) (Py.strip (group1 text m)) = true).
  { apply all_chars_strip.
    apply first_match_in in E. destruct E as [Hin Hs].
    unfold dept_patterns in Hin. cbn [List.In] in Hin.
    assert (M : matches (plus dept_chars) (group1 text m)).
    { destruct Hin as [<-|[<-|[]]];
        match type of Hs with
        | search ?r _ = _ =>
            destruct (last_group_search r (plus dept_chars) _ _ eq_refl Hs) as (w & _ & M)
        end; exact M. }
    unfold plus in M. destruct (matches_rep_inv _ _ _ _ M) as (Hd & _).
    now rewrite <- (all_in_all_chars dept_chars (in_set dept_chars) _ (fun x => eq_refl)). }
  split; [apply strip_idem|]. split; [exact A|]. split; [|discriminate].
  revert A. apply all_chars_impl. intros x Hx.
  destruct (dept_char_no_digit_colon x Hx) as [Hd Hc]. rewrite Hd. simpl.
  apply negb_true_iff. now apply Ascii.eqb_neq.
Qed.

Lemma first_hit_split {A B} (f : A -> option B) (l : list A) :
  match first_hit f l with
  | Some b =>
      exists before a after,
        l = (before ++ a :: after)%list /\ f a = Some b
        /\ (forall x, List.In x before -> f x = None)
  | None => forall x, List.In x l -> f x = None
  end.
Proof.
  induction l as [|a l IH]; simpl; [tauto|].
  destruct (f a) as [b|] eqn:E.
  - exists [], a, l. simpl. tauto.
  - destruct (first_hit f l) as [b|].
    + destruct IH as (before & a' & after & -> & Ha & Hb).
      exists (a :: before), a', after. split; [reflexivity|]. split; [exact Ha|].
      intros x [<-|Hx]; auto.
    + intros x [<-|Hx]; auto.
Qed.

Lemma uni_rule_qualifies line :
  uni_rule line = if qualifies line then Some (Py.strip line) else None.
Proof. reflexivity. Qed.

Lemma split_on_no_sep sep s line :
  List.In line (Py.split_on sep s) ->
  all_chars (fun c => negb (Ascii.eqb c sep)) line = true.
Proof.
  revert line. induction s as [|c s IH]; intros line; simpl.
  - intros [<-|[]]. reflexivity.
  - destruct (Ascii.eqb c sep) eqn:E.
    + intros [<-|H]; [reflexivity | now apply IH].
    + destruct (Py.split_on sep s) as [|w ws].
      * intros [<-|[]]. simpl. now rewrite E.
      * intros [<-|H].
        -- simpl. rewrite E. simpl. apply IH. now left.
        -- apply IH. now right.
Qed.

(** X13. The University field is the first line of the text, trimmed, whose
    lower-case form holds one of the three keywords and whose trimmed
    length exceeds 10; it is empty when no line qualifies.  The lines are
    the pieces between newline characters (U+000A): a University that is
    set is longer than 10 characters, is trimmed, and holds no newline
    character.  Other line separators are not split on: a carriage return
    inside a line stays in the stored value. *)
Theorem university_is_first_qualifying_line (text : string) :
  (exists v,
    Dict.get "University" (parse_id_card_fields text) = Some v
    /\ ((v = "" /\ forall line, List.In line (Py.split_on Py.nl text) -> qualifies line = false)
        \/ (exists before line after,
              Py.split_on Py.nl text = (before ++ line :: after)%list
              /\ (forall l, List.In l before -> qualifies l = false)
              /\ qualifies line = true
              /\ v = Py.strip line
              /\ 10 < String.length v
              /\ Py.strip v = v
              /\ all_chars (fun c => negb (Ascii.eqb c Py.nl)) v = true)))
  /\ Dict.get "University"
       (parse_id_card_fields ("Premier University" ++ String "013" "Chittagong" ++ String Py.nl "ID"))
     = Some ("Premier University" ++ String "013" "Chittagong").
Proof.
  split; [|vm_compute; reflexivity].
  destruct (parse_get_id_university text) as [_ G]. rewrite G.
  eexists. split; [reflexivity|].
  pose proof (first_hit_split uni_rule (Py.split_on Py.nl text)) as H.
  destruct (first_hit uni_rule (Py.split_on Py.nl text)) as [v|].
  - right. destruct H as (before & line & after & E & Hline & Hbefore).
    rewrite uni_rule_qualifies in Hline.
    destruct (qualifies line) eqn:Q; [|discriminate]. injection Hline as <-.
    exists before, line, after. split; [exact E|]. split.
    + intros l Hl. specialize (Hbefore l Hl). rewrite uni_rule_qualifies in Hbefore.
      destruct (qualifies l); [discriminate | reflexivity].
    + split; [exact Q|]. split; [reflexivity|]. split.
      * unfold qualifies in Q. apply andb_true_iff in Q. destruct Q as [_ Q].
        now apply Nat.ltb_lt in Q.
      * split; [apply strip_idem|]. apply all_chars_strip.
        apply (split_on_no_sep Py.nl text). rewrite E. apply in_app_iff. right. now left.
  - left. split; [reflexivity|]. intros line Hl. specialize (H line Hl).
    rewrite uni_rule_qualifies in H. destruct (qualifies line); [discriminate | reflexivity].
Qed.

End DeptUni.

(** ** The upload filter *)

Section Upload.
Import More App.

Lemma rsplit1_dotless sep s :
  all_chars (fun c => negb (Ascii.eqb c sep)) s = true -> rsplit1 sep s = [s].
Proof.
  induction s as [|c s IH]; simpl; [reflexivity|].
  intros H. apply andb_true_iff in H. destruct H as [Hc Hs].
  rewrite (IH Hs). apply negb_true_iff in Hc. now rewrite Hc.
Qed.

Lemma rsplit1_last sep stem ext :
  all_chars (fun c => negb (Ascii.eqb c sep)) ext = true ->
  rsplit1 sep (stem ++ String sep ext) = [stem; ext].
Proof.
  intros H. induction stem as [|c stem IH]; simpl.
  - now rewrite (rsplit1_dotless sep ext H), Ascii.eqb_refl.
  - now rewrite IH.
Qed.

Lemma prefix_dot c s : prefix "." (String c s) = Ascii.eqb c ".".
Proof.
  cbn [prefix]. destruct (ascii_dec "." c) as [<-|Hne].
  - rewrite Ascii.eqb_refl. now destruct s.
  - destruct (Ascii.eqb_spec c "."); congruence.
Qed.

Lemma contains_dot_dotless s : Py.contains "." s = negb (dotless s).
Proof.
  unfold dotless. induction s as [|c s IH]; [reflexivity|].
  cbn [Py.contains all_chars]. rewrite prefix_dot, IH.
  destruct (Ascii.eqb c "."); simpl; [reflexivity|].
  now destruct (all_chars _ s).
Qed.

Lemma last_dot s :
  dotless s = false ->
  exists stem ext, s = stem ++ String "." ext /\ dotless ext = true.
Proof.
  unfold dotless. induction s as [|c s IH]; [discriminate|].
  cbn [all_chars]. intros H.
  destruct (all_chars (fun c0 => negb (Ascii.eqb c0 ".")) s) eqn:Es.
  - rewrite andb_true_r in H. apply negb_false_iff in H.
    apply Ascii.eqb_eq in H. subst c. exists "", s. auto.
  - destruct (IH eq_refl) as (stem & ext & -> & Hext).
    exists (String c stem), ext. auto.
Qed.

Lemma contains_dot_iff s :
  Py.contains "." s = true <->
  exists stem ext, s = stem ++ String "." ext /\ dotless ext = true.
Proof.
  rewrite contains_dot_dotless, negb_true_iff. split.
  - apply last_dot.
  - intros (stem & ext & -> & _). unfold dotless. rewrite all_chars_app. simpl.
    now rewrite andb_false_r.
Qed.

(** X14. [allowed_file] looks only at what follows the last dot of the
    name, with case ignored: a name is accepted exactly when it is some
    stem (possibly empty, possibly with dots), a dot, and one of png, jpg,
    jpeg, bmp, tiff, pdf in any letter case.  A name without a dot is
    refused. *)
Theorem allowed_file_last_extension (filename : string) :
  (allowed_file filename = true <->
   exists stem ext,
     filename = stem ++ String "." ext /\ dotless ext = true
     /\ In (Py.lower ext) ALLOWED_EXTENSIONS)
  /\ (forall stem ext, dotless ext = true ->
        allowed_file (stem ++ String "." ext)
          = existsb (String.eqb (Py.lower ext)) ALLOWED_EXTENSIONS)
  /\ (dotless filename = true -> allowed_file filename = false).
Proof.
  assert (ext_of : forall stem ext, dotless ext = true ->
            allowed_file (stem ++ String "." ext)
              = existsb (String.eqb (Py.lower ext)) ALLOWED_EXTENSIONS).
  { intros stem ext Hext. unfold allowed_file.
    rewrite (rsplit1_last "." stem ext Hext). cbn [nth_error].
    replace (Py.contains "." (stem ++ String "." ext)) with true; [reflexivity|].
    symmetry. apply contains_dot_iff. eauto. }
  split; [|split; [exact ext_of|]].
  - split.
    + intros H. assert (Hd : Py.contains "." filename = true).
      { unfold allowed_file in H. now apply andb_true_iff in H. }
      apply contains_dot_iff in Hd. destruct Hd as (stem & ext & -> & Hext).
      exists stem, ext. split; [reflexivity|]. split; [exact Hext|].
      rewrite (ext_of stem ext Hext) in H. apply existsb_exists in H.
      destruct H as (a & Ha & E). apply String.eqb_eq in E. now rewrite E.
    + intros (stem & ext & -> & Hext & Hin). rewrite (ext_of stem ext Hext).
      apply existsb_exists. exists (Py.lower ext). split; [exact Hin | apply String.eqb_refl].
  - intros Hd. unfold allowed_file.
    destruct (Py.contains "." filename) eqn:E; [|reflexivity].
    apply contains_dot_iff in E. destruct E as (stem & ext & -> & Hext).
    unfold dotless in Hd. rewrite all_chars_app in Hd. simpl in Hd.
    rewrite andb_false_r in Hd. discriminate.
Qed.

End Upload.

(** ** Texts without letters *)

Section NoLetters.
Import Re BaseOCREngine Rules More.

Lemma in_all_ascii x : List.In x all_ascii.
Proof.
  unfold all_ascii. rewrite <- (ascii_nat_embedding x). apply in_map.
  apply in_seq. pose proof (nat_ascii_bounded x). lia.
Qed.

Lemma set_of_letters set x :
  forallb (fun y => implb (in_set set y) (is_letter y)) all_ascii = true ->
  in_set set x = true -> is_letter x = true.
Proof.
  intros H Hx. rewrite forallb_forall in H. specialize (H x (in_all_ascii x)).
  now rewrite Hx in H.
Qed.

Lemma letter_lowers_to_az c :
  is_letter c = true -> Py.between 97 122 (Py.code (Py.lower_char c)) = true.
Proof. destruct c as [[] [] [] [] [] [] [] []]; vm_compute; auto. Qed.

Lemma lowers_to_az_letter x :
  Py.between 97 122 (Py.code (Py.lower_char x)) = true -> is_letter x = true.
Proof. destruct x as [[] [] [] [] [] [] [] []]; vm_compute; auto. Qed.

Lemma same_lower_letter x c :
  Py.lower_char x = Py.lower_char c -> is_letter c = true -> is_letter x = true.
Proof.
  intros E Hc. apply lowers_to_az_letter. rewrite E. now apply letter_lowers_to_az.
Qed.

(** A word of a pattern that passes the test holds a letter. *)
Lemma needs_letter_sound r : forall w,
  needs_letter r = true -> matches r w -> any_char is_letter w = true.
Proof.
  induction r as [c|set|set lo hi|r1 IH1 r2 IH2|r1 IH1 r2 IH2|r IH];
    intros w Hn M; simpl in Hn.
  - destruct (matches_chr_inv _ _ M) as (x & -> & E). simpl.
    now rewrite (same_lower_letter x c E Hn).
  - destruct (matches_oneof_inv _ _ M) as (x & -> & Hx). simpl.
    now rewrite (set_of_letters set x Hn Hx).
  - apply andb_true_iff in Hn. destruct Hn as [Hlo Hset].
    destruct (matches_rep_inv _ _ _ _ M) as (Hw & Hlen & _).
    destruct lo as [|lo]; [discriminate|].
    destruct w as [|x w]; [simpl in Hlen; lia|].
    simpl in Hw. apply andb_true_iff in Hw. destruct Hw as [Hx _]. simpl.
    now rewrite (set_of_letters set x Hset Hx).
  - destruct (matches_cat_inv _ _ _ M) as (w1 & w2 & -> & M1 & M2).
    rewrite any_char_app. apply orb_true_iff. apply orb_true_iff in Hn.
    destruct Hn as [Hn|Hn]; [left; now apply IH1 | right; now apply IH2].
  - apply andb_true_iff in Hn. destruct Hn as [H1 H2].
    destruct (matches_alt_inv _ _ _ M); [now apply IH1 | now apply IH2].
  - apply IH; [exact Hn | now apply matches_grp_inv].
Qed.

Lemma search_needs_letter r text :
  needs_letter r = true -> any_char is_letter text = false -> search r text = None.
Proof.
  intros Hn Ht. destruct (search r text) as [m|] eqn:E; [|reflexivity].
  destruct (search_sound _ _ _ E) as (pre & w & post & -> & M & _).
  rewrite !any_char_app, (needs_letter_sound r w Hn M) in Ht.
  rewrite orb_true_r in Ht. discriminate.
Qed.

Lemma letter_of_lower s :
  any_char is_letter (Py.lower s) = true -> any_char is_letter s = true.
Proof.
  unfold Py.lower. induction s as [|c s IH]; simpl; [discriminate|].
  intros H. apply orb_true_iff in H. apply orb_true_iff. destruct H as [H|H]; [left | auto].
  revert H. clear. destruct c as [[] [] [] [] [] [] [] []]; vm_compute; auto.
Qed.

Lemma contains_head k kw s :
  Py.contains (String k kw) s = true -> any_char (Ascii.eqb k) s = true.
Proof.
  induction s as [|c s IH]; [discriminate|].
  cbn [Py.contains any_char prefix]. intros H. apply orb_true_iff in H.
  apply orb_true_iff. destruct H as [H|H]; [left | right; now apply IH].
  destruct (ascii_dec k c) as [->|]; [apply Ascii.eqb_refl | discriminate].
Qed.

Lemma any_char_impl (p q : ascii -> bool) s :
  (forall x, p x = true -> q x = true) -> any_char p s = true -> any_char q s = true.
Proof.
  intros H. induction s as [|c s IH]; simpl; [discriminate|].
  intros Hs. apply orb_true_iff in Hs. apply orb_true_iff.
  destruct Hs as [Hc|Hs]; [left; now apply H | right; now apply IH].
Qed.

Lemma qualifies_needs_letter line :
  qualifies line = true -> any_char is_letter line = true.
Proof.
  unfold qualifies. intros H. apply andb_true_iff in H. destruct H as [H _].
  apply existsb_exists in H. destruct H as (kw & Hkw & Hc).
  apply letter_of_lower.
  unfold uni_keywords in Hkw. cbn [List.In] in Hkw.
  destruct Hkw as [<-|[<-|[<-|[]]]]; apply contains_head in Hc;
    revert Hc; apply any_char_impl; intros x Hx; apply Ascii.eqb_eq in Hx; now subst x.
Qed.

Lemma line_chars p sep s line :
  List.In line (Py.split_on sep s) -> any_char p line = true -> any_char p s = true.
Proof.
  revert line. induction s as [|c s IH]; intros line; simpl.
  - intros [<-|[]] H. exact H.
  - destruct (Ascii.eqb c sep).
    + intros [<-|H] Hl; [discriminate|]. apply orb_true_iff. right. now apply (IH line).
    + destruct (Py.split_on sep s) as [|w ws].
      * intros [<-|[]] Hl. simpl in Hl. rewrite orb_false_r in Hl. now rewrite Hl.
      * intros [<-|H] Hl.
        -- simpl in Hl. apply orb_true_iff in Hl. apply orb_true_iff.
           destruct Hl as [Hl|Hl]; [now left | right]. apply (IH w); [now left | exact Hl].
        -- apply orb_true_iff. right. apply (IH line); [now right | exact Hl].
Qed.

Lemma any_char_ext (p q : ascii -> bool) s :
  (forall x, p x = q x) -> any_char p s = any_char q s.
Proof.
  intros H. induction s as [|c s IH]; simpl; [reflexivity | now rewrite H, IH].
Qed.

(** X15. A text without any character of the class [[A-Za-z]], as the
    patterns match it with case ignored (the empty text, digits,
    punctuation, whitespace), yields the record with the seven fields all
    empty: every rule of the extractor needs a character of that class. *)
Theorem letterless_text_yields_empty_record (text : string) :
  any_char (in_set letters) text = false -> parse_id_card_fields text = empty_fields.
Proof.
  intros Ht. rewrite (any_char_ext (in_set letters) is_letter text letters_is_letter) in Ht.
  assert (S : forall r, needs_letter r = true -> search r text = None)
    by (intros r Hr; now apply search_needs_letter).
  assert (U : first_hit uni_rule (Py.split_on Py.nl text) = None).
  { pose proof (first_hit_split uni_rule (Py.split_on Py.nl text)) as H.
    destruct (first_hit uni_rule (Py.split_on Py.nl text)) as [v|]; [|reflexivity].
    destruct H as (before & line & after & E & Hline & _).
    rewrite uni_rule_qualifies in Hline. destruct (qualifies line) eqn:Q; [|discriminate].
    apply qualifies_needs_letter in Q.
    rewrite (line_chars is_letter Py.nl text line) in Ht; [discriminate| |exact Q].
    rewrite E. apply in_app_iff. right. now left. }
  unfold parse_id_card_fields. rewrite U.
  unfold id_patterns, name_patterns, dept_patterns, year_patterns, blood_patterns,
    validity_patterns.
  cbn [first_hit].
  unfold id_rule, name_rule, dept_rule, year_rule, blood_rule, validity_rule.
  rewrite !S by (vm_compute; reflexivity).
  reflexivity.
Qed.

Lemma letterless_text_yields_empty_record_witness :
  parse_id_card_fields "2010074 : 16/04/2024 (+)" = empty_fields.
Proof.
  apply (letterless_text_yields_empty_record "2010074 : 16/04/2024 (+)").
  reflexivity.
Defined.

End NoLetters.

(** ** The second name pattern *)

Section FullNameRule.
Import Re BaseOCREngine Rules More.

(** Whether a repetition succeeds depends neither on the position nor on
    what its continuation returns, only on where the continuation
    succeeds. *)
Lemma rep_none_iff set s : forall lo hi pos pos' (k k' : string -> nat -> option match_obj),
  (forall s1 p p', k s1 p = None <-> k' s1 p' = None) ->
  (rep set lo hi s pos k = None <-> rep set lo hi s pos' k' = None).
Proof.
  induction s as [|c s IH]; intros lo hi pos pos' k k' H; simpl.
  - destruct lo; [apply H | tauto].
  - destruct (in_set set c && more hi).
    + specialize (IH (pred lo) (option_map pred hi) (S pos) (S pos') k k' H).
      destruct (rep set (pred lo) (option_map pred hi) s (S pos) k),
               (rep set (pred lo) (option_map pred hi) s (S pos') k').
      * split; discriminate.
      * exfalso. destruct IH as [_ IH]. specialize (IH eq_refl). discriminate.
      * exfalso. destruct IH as [IH _]. specialize (IH eq_refl). discriminate.
      * destruct lo; [apply H | tauto].
    + destruct lo; [apply H | tauto].
Qed.

Lemma rmatch_none_iff r : forall s pos pos' g g' k k',
  (forall s1 p p' g1 g1', k s1 p g1 = None <-> k' s1 p' g1' = None) ->
  (rmatch r s pos g k = None <-> rmatch r s pos' g' k' = None).
Proof.
  induction r as [c|set|set lo hi|r1 IH1 r2 IH2|r1 IH1 r2 IH2|r IH];
    intros s pos pos' g g' k k' H; simpl.
  - destruct s as [|x s]; [tauto|]. destruct (Ascii.eqb _ _); [apply H | tauto].
  - destruct s as [|x s]; [tauto|]. destruct (in_set set x); [apply H | tauto].
  - apply rep_none_iff. intros. apply H.
  - apply IH1. intros. apply IH2. exact H.
  - specialize (IH1 s pos pos' g g' k k' H). specialize (IH2 s pos pos' g g' k k' H).
    destruct (rmatch r1 s pos g k), (rmatch r1 s pos' g' k').
    + split; discriminate.
    + exfalso. destruct IH1 as [_ IH1]. specialize (IH1 eq_refl). discriminate.
    + exfalso. destruct IH1 as [IH1 _]. specialize (IH1 eq_refl). discriminate.
    + exact IH2.
  - apply IH. intros. apply H.
Qed.

Lemma chr_step c r s pos g k :
  rmatch (Cat (Chr c) r) s pos g k <> None ->
  exists x s', s = String x s' /\ rmatch r s' (S pos) g k <> None.
Proof.
  rewrite rmatch_cat. simpl. destruct s as [|x s]; [congruence|].
  destruct (Ascii.eqb _ _); [eauto | congruence].
Qed.

(** Where the "Full Name" pattern matches, the "Name" pattern matches five
    characters further on. *)
Lemma full_name_match_at body s0 pos :
  match_at (labelled "Full Name" body) s0 pos <> None ->
  exists five s5,
    s0 = five ++ s5 /\ String.length five = 5
    /\ match_at (labelled "Name" body) s5 (pos + 5) <> None.
Proof.
  unfold match_at, labelled. intros H.
  change (rmatch
            (Cat (Chr "F") (Cat (Chr "u") (Cat (Chr "l") (Cat (Chr "l") (Cat (Chr " ")
               (Cat (lit "Name") (Cat (star colon_space) (Grp body))))))))
            s0 pos None (fun _ pos' g => Some (mkMatch pos pos' g)) <> None) in H.
  destruct (chr_step _ _ _ _ _ _ H) as (x1 & s1 & -> & H1).
  destruct (chr_step _ _ _ _ _ _ H1) as (x2 & s2 & -> & H2).
  destruct (chr_step _ _ _ _ _ _ H2) as (x3 & s3 & -> & H3).
  destruct (chr_step _ _ _ _ _ _ H3) as (x4 & s4 & -> & H4).
  destruct (chr_step _ _ _ _ _ _ H4) as (x5 & s5 & -> & H5).
  exists (String x1 (String x2 (String x3 (String x4 (String x5 ""))))), s5.
  split; [reflexivity|]. split; [reflexivity|].
  intros E. apply H5.
  revert E. apply rmatch_none_iff. intros. split; discriminate.
Qed.

Lemma full_name_search body text :
  search (labelled "Full Name" body) text <> None ->
  search (labelled "Name" body) text <> None.
Proof.
  unfold search. intros H.
  destruct (search_from (labelled "Full Name" body) text 0) as [m|] eqn:E; [|congruence].
  destruct (search_from_inv _ _ _ _ E) as (pre & s0 & -> & Hm).
  destruct (full_name_match_at body s0 (0 + String.length pre)) as (five & s5 & -> & H5 & Hn).
  { rewrite Hm. discriminate. }
  rewrite <- sapp_assoc. apply search_from_complete.
  rewrite slength_app, H5. exact Hn.
Qed.

(** X16. The "Full Name" pattern never decides the field: a text it matches
    is matched by the "Name" pattern, which the loop tries first, so the
    pattern that sets FullName is always the first one. *)
Theorem full_name_pattern_is_shadowed (text : string) :
  (search (labelled "Full Name" three_words) text <> None ->
   search (labelled "Name" three_words) text <> None)
  /\ (forall p m, first_match name_patterns text = Some (p, m) ->
        p = labelled "Name" three_words).
Proof.
  split; [apply full_name_search|].
  intros p m H.
  revert H. unfold name_patterns. cbn [first_match].
  fold (labelled "Name" three_words). fold (labelled "Full Name" three_words).
  destruct (search (labelled "Name" three_words) text) eqn:E1.
  - intros [= <- <-]. reflexivity.
  - destruct (search (labelled "Full Name" three_words) text) eqn:E2; [|discriminate].
    exfalso. apply (full_name_search three_words text); [rewrite E2; discriminate | exact E1].
Qed.

Lemma full_name_pattern_is_shadowed_witness :
  search (labelled "Name" three_words) "Full Name: John Michael Smith" <> None.
Proof.
  apply (proj1 (full_name_pattern_is_shadowed "Full Name: John Michael Smith")).
  vm_compute. discriminate.
Defined.

End FullNameRule.

(** ** The OCR routes *)

Lemma not_empty_truthy (s : string) : s <> "" -> negb (Py.is_empty s) = true.
Proof. destruct s; [congruence | reflexivity]. Qed.

Section Routes.
Import BaseOCREngine OCRProcessor Voting More App Service.

Variable secure_filename : string -> string.
Variable upload_uuid_hex : string.
Variable path_join : string -> string -> string.
Variable file_save : FileStorage -> string -> outcome unit.
Variable id_uuid : string.
Variable utcnow_isoformat : string.
Variable persist : ResultData -> outcome unit.

Variable files : Dict.t FileStorage.
Variable file : FileStorage.

(** The path under which the upload is saved. *)
Let unique_filename : string := upload_uuid_hex ++ "_" ++ secure_filename (fs_filename file).
Let file_path : string := path_join UPLOAD_FOLDER unique_filename.

(** The request carries an image with an allowed name, and saving it
    succeeds. *)
Hypothesis image_present : Dict.get "image" files = Some file.
Hypothesis name_allowed : allowed_file (fs_filename file) = true.
Hypothesis saved : file_save file file_path = Returned tt.
Hypothesis path_not_empty : falsy file_path = false.

Lemma allowed_name_not_empty : fs_filename file <> "".
Proof.
  intros E. pose proof name_allowed as H. rewrite E in H. discriminate.
Qed.

Lemma upload_is_saved :
  save_uploaded_file secure_filename upload_uuid_hex path_join file_save file
    = Returned (Some (file_path, unique_filename)).
Proof.
  unfold save_uploaded_file, truthy.
  rewrite name_allowed, (not_empty_truthy _ allowed_name_not_empty). cbn [andb].
  fold unique_filename. fold file_path. now rewrite saved.
Qed.

(** X17. Once the upload is accepted and saved, the single-engine route
    answers 400 with "Unknown engine: ..." for an identifier that is not
    registered, and 200 for every registered identifier: the body then
    carries the result of that engine's [process_image], also when the
    engine itself failed and the result is the degraded one. *)
Theorem single_route_status (engines : EngineRegistry) (engine_name : string) :
  (Dict.get engine_name engines = None ->
   process_ocr_single engines secure_filename upload_uuid_hex path_join file_save
     id_uuid utcnow_isoformat files engine_name
   = error_only ("Unknown engine: " ++ engine_name) 400)
  /\ (forall e, Dict.get engine_name engines = Some e ->
      exists r,
        call_process_image e file_path = Returned r
        /\ process_ocr_single engines secure_filename upload_uuid_hex path_join file_save
             id_uuid utcnow_isoformat files engine_name
           = (JObj [("id", JStr id_uuid);
                    ("filename", JStr unique_filename);
                    ("engine", JStr engine_name);
                    ("result", result_json r);
                    ("timestamp", JStr utcnow_isoformat)], 200)).
Proof.
  assert (Hne : String.eqb (fs_filename file) "" = false)
    by (apply String.eqb_neq, allowed_name_not_empty).
  unfold process_ocr_single, Dict.mem, lookup. rewrite image_present.
  cbn [negb bind]. rewrite Hne, upload_is_saved. cbn [bind]. rewrite path_not_empty.
  unfold process_single, Dict.mem. split.
  - intros H. rewrite H. reflexivity.
  - intros e H. rewrite H. cbn [negb].
    destruct (call_process_image_returns e file_path) as [r Hr].
    exists r. split; [exact Hr|]. now rewrite Hr.
Qed.



End Routes.

Lemma single_route_status_witness :
  Service.process_ocr_single Samples.registry (fun name => name) "0f" (fun a b => a ++ "/" ++ b)
    (fun _ _ => Returned tt) "id-1" "2024-01-01T00:00:00"
    [("image", Service.mkFile "card.PNG")] "paddle"
  = Service.error_only ("Unknown engine: " ++ "paddle") 400.
Proof.
  apply (single_route_status (fun name => name) "0f" (fun a b => a ++ "/" ++ b)
           (fun _ _ => Returned tt) "id-1" "2024-01-01T00:00:00"
           [("image", Service.mkFile "card.PNG")] (Service.mkFile "card.PNG")
           eq_refl eq_refl eq_refl eq_refl Samples.registry "paddle").
  reflexivity.
Defined.

